(** * genai-toolbox: registry build, listener, auth gate and MCP tool calls

    A shallow embedding of [internal/server/server.go] ([NewServer],
    [Listen]) and, for the parts of the repository the server delegates
    to, of the behaviour the specification gives for the auth gate, the
    invocation pipeline and the MCP [tools/call] handler. *)

From Stdlib Require Import Ascii String.
From stdpp Require Import gmap strings list fin_maps pretty.

(** ** Go values *)

(** The double-quote character, and a name between double quotes. *)
Definition dquote : string :=
  String (Ascii.Ascii false true false false false true false false) EmptyString.

Definition quoted (s : string) : string := dquote +:+ s +:+ dquote.

(** Go's [error] values. [errorString] is what [errors.New] and a
    [fmt.Errorf] without [%w] build; [wrapError] is what [fmt.Errorf]
    builds for a format with [%w]: the formatted text and the wrapped
    cause. *)
Inductive error : Type :=
  | errorString (msg : string)
  | wrapError (msg : string) (err : error).

Definition Error (e : error) : string :=
  match e with
  | errorString msg => msg
  | wrapError msg _ => msg
  end.


(** [fmt.Errorf(prefix + "%w", err)]. *)
Definition Errorf_w (prefix : string) (err : error) : error :=
  wrapError (prefix +:+ Error err) err.

(** A Go call returning [(T, error)]. *)
Inductive result (A : Type) : Type :=
  | Ok (a : A)
  | Err (e : error).
Arguments Ok {A} a.
Arguments Err {A} e.

Definition is_Ok {A} (r : result A) : Prop := ∃ a, r = Ok a.
Definition is_Err {A} (r : result A) : Prop := ∃ e, r = Err e.

Lemma is_Ok_or_Err {A} (r : result A) : is_Ok r ∨ is_Err r.
Proof. destruct r; [left | right]; eexists; reflexivity. Qed.

Lemma not_Ok_Err {A} (r : result A) : is_Ok r → is_Err r → False.
Proof. intros [a ->] [e He]. discriminate. Qed.

Lemma append_assoc (s1 s2 s3 : string) : s1 +:+ s2 +:+ s3 = (s1 +:+ s2) +:+ s3.
Proof.
  induction s1 as [|a s IH]; [reflexivity|].
  change (String a (s +:+ s2 +:+ s3) = String a ((s +:+ s2) +:+ s3)).
  by rewrite IH.
Qed.

(** [net.JoinHostPort]. *)
Fixpoint has_colon (s : string) : bool :=
  match s with
  | EmptyString => false
  | String c s' => if Ascii.eqb c ":"%char then true else has_colon s'
  end.

Definition JoinHostPort (host port : string) : string :=
  if has_colon host then "[" +:+ host +:+ "]:" +:+ port
  else host +:+ ":" +:+ port.

(** ** internal/server/server.go *)
Module server.
Section Registry.

(** The live objects of packages [sources], [auth] and [tools], and
    [net.Listener]; the server only stores and passes them on. *)
Context {Source AuthService Tool Toolset Listener : Type}.

(** [sources.SourceConfig], [auth.AuthServiceConfig] and
    [tools.ToolConfig] are interfaces: a value carries its methods. *)
Record SourceConfig : Type := {
  SourceConfigKind : string;
  source_Initialize : result Source;
}.

Record AuthServiceConfig : Type := {
  AuthServiceConfigKind : string;
  auth_Initialize : result AuthService;
}.

Record ToolConfig : Type := {
  ToolConfigKind : string;
  tool_Initialize : gmap string Source → result Tool;
}.

(** [tools.ToolsetConfig] is a struct. *)
Record ToolsetConfig : Type := {
  Name : string;
  ToolNames : list string;
}.

Record ServerConfig : Type := {
  Version : string;
  Address : string;
  Port : Z;
  SourceConfigs : gmap string SourceConfig;
  AuthServiceConfigs : gmap string AuthServiceConfig;
  ToolConfigs : gmap string ToolConfig;
  ToolsetConfigs : gmap string ToolsetConfig;
  LoggingFormat : string;
  LogLevel : string;
}.

(** The fields of [Server] that hold data; the router, logger,
    instrumentation and SSE manager handles are behind [Env] below.
    [srv_Addr] is [s.srv.Addr]. *)
Record Server : Type := {
  version : string;
  srv_Addr : string;
  listener : option Listener;
  sources : gmap string Source;
  authServices : gmap string AuthService;
  tools : gmap string Tool;
  toolsets : gmap string Toolset;
}.

(** What [NewServer] and [Listen] call outside this file. *)
Record Env : Type := {
  CreateTelemetryInstrumentation : string → option error;
  SeverityToLevel : string → option error;
  toolset_Initialize : ToolsetConfig → string → gmap string Tool → result Toolset;
  apiRouter : Server → option error;
  mcpRouter : Server → option error;
  Quote : string → string;
  listener_Addr : Listener → string;
}.

(** What a run does to the outside, in order: the constructor calls and
    the log lines. Tracing spans carry nothing back into the build and
    are left out. *)
Inductive Event : Type :=
  | SourceInit (name : string)
  | AuthServiceInit (name : string)
  | ToolInit (name : string) (sourcesMap : gmap string Source)
  | ToolsetInit (name : string) (toolsMap : gmap string Tool)
  | Log (msg : string).

(** Calls that may fail and that leave events behind. *)
Definition M (A : Type) : Type := list Event → result A * list Event.

Definition ret {A} (a : A) : M A := λ tr, (Ok a, tr).
Definition fail {A} (e : error) : M A := λ tr, (Err e, tr).
Definition bind {A B} (m : M A) (k : A → M B) : M B :=
  λ tr, match m tr with
        | (Ok a, tr') => k a tr'
        | (Err e, tr') => (Err e, tr')
        end.
Definition emit (ev : Event) : M unit := λ tr, (Ok tt, tr ++ [ev]).

Notation "x <~ m ;; k" := (bind m (λ x, k))
  (at level 100, m at next level, right associativity).
Notation "m ;;; k" := (bind m (λ _, k))
  (at level 100, right associativity).

(** [if err != nil { return nil, fmt.Errorf(prefix + "%w", err) }]. *)
Definition check (prefix : string) (r : option error) : M unit :=
  match r with
  | Some err => fail (Errorf_w prefix err)
  | None => ret tt
  end.

(** [if err != nil { return nil, err }]. *)
Definition try (r : option error) : M unit :=
  match r with
  | Some err => fail err
  | None => ret tt
  end.

(** [for name, x := range m { acc = body(name, x, acc) }] over the
    entries of [m] in the order the loop visits them. *)
Fixpoint forRange {A B} (body : string → A → B → M B)
    (entries : list (string * A)) (acc : B) : M B :=
  match entries with
  | [] => ret acc
  | (name, x) :: rest => acc' <~ body name x acc ;; forRange body rest acc'
  end.

Variable env : Env.

(** The order in which [range] visits a map: unspecified in Go, and
    here any enumeration of the map's entries. *)
Variable range : ∀ A : Type, gmap string A → list (string * A).
Hypothesis range_perm :
  ∀ (A : Type) (m : gmap string A), range A m ≡ₚ map_to_list m.

Definition initSource (name : string) (sc : SourceConfig) : M Source :=
  emit (SourceInit name) ;;;
  match source_Initialize sc with
  | Err err =>
      fail (Errorf_w ("unable to initialize source " +:+ Quote env name +:+ ": ") err)
  | Ok s => ret s
  end.

Definition initAuthService (name : string) (sc : AuthServiceConfig) : M AuthService :=
  emit (AuthServiceInit name) ;;;
  match auth_Initialize sc with
  | Err err =>
      fail (Errorf_w ("unable to initialize auth service " +:+ Quote env name +:+ ": ") err)
  | Ok a => ret a
  end.

Definition initTool (sourcesMap : gmap string Source)
    (name : string) (tc : ToolConfig) : M Tool :=
  emit (ToolInit name sourcesMap) ;;;
  match tool_Initialize tc sourcesMap with
  | Err err =>
      fail (Errorf_w ("unable to initialize tool " +:+ Quote env name +:+ ": ") err)
  | Ok t => ret t
  end.

Definition initToolset (ver : string) (toolsMap : gmap string Tool)
    (name : string) (tc : ToolsetConfig) : M Toolset :=
  emit (ToolsetInit name toolsMap) ;;;
  match toolset_Initialize env tc ver toolsMap with
  | Err err =>
      fail (Errorf_w ("unable to initialize toolset " +:+ Quote env name +:+ ": ") err)
  | Ok t => ret t
  end.

(** The default toolset's configuration: [allToolNames] collected by
    ranging over the tool map. *)
Definition allToolNames (toolsMap : gmap string Tool) : list string :=
  (range Tool toolsMap).*1.

Definition defaultToolsetConfig (toolsMap : gmap string Tool) : ToolsetConfig :=
  {| Name := EmptyString; ToolNames := allToolNames toolsMap |}.

Definition NewServer (cfg : ServerConfig) : M Server :=
  check "unable to create telemetry instrumentation: "
    (CreateTelemetryInstrumentation env (Version cfg)) ;;;
  check "unable to initialize http log: " (SeverityToLevel env (LogLevel cfg)) ;;;
  (if decide (LoggingFormat cfg = "json") then ret tt
   else if decide (LoggingFormat cfg = "standard") then ret tt
   else fail (errorString
                ("invalid Logging format: " +:+ Quote env (LoggingFormat cfg)))) ;;;
  (* initialize and validate the sources from configs *)
  sourcesMap <~ forRange
      (λ name sc sourcesMap,
         s <~ initSource name sc ;; ret (<[name := s]> sourcesMap))
      (range _ (SourceConfigs cfg)) ∅ ;;
  emit (Log ("Initialized " +:+ pretty (size sourcesMap) +:+ " sources.")) ;;;
  (* initialize and validate the auth services from configs *)
  authServicesMap <~ forRange
      (λ name sc authServicesMap,
         a <~ initAuthService name sc ;; ret (<[name := a]> authServicesMap))
      (range _ (AuthServiceConfigs cfg)) ∅ ;;
  emit (Log ("Initialized " +:+ pretty (size authServicesMap) +:+ " authServices.")) ;;;
  (* initialize and validate the tools from configs *)
  toolsMap <~ forRange
      (λ name tc toolsMap,
         t <~ initTool sourcesMap name tc ;; ret (<[name := t]> toolsMap))
      (range _ (ToolConfigs cfg)) ∅ ;;
  emit (Log ("Initialized " +:+ pretty (size toolsMap) +:+ " tools.")) ;;;
  (* create a default toolset that contains all tools *)
  let toolsetConfigs :=
    <[EmptyString := defaultToolsetConfig toolsMap]> (ToolsetConfigs cfg) in
  (* initialize and validate the toolsets from configs *)
  toolsetsMap <~ forRange
      (λ name tc toolsetsMap,
         t <~ initToolset (Version cfg) toolsMap name tc ;;
         ret (<[name := t]> toolsetsMap))
      (range _ toolsetConfigs) ∅ ;;
  emit (Log ("Initialized " +:+ pretty (size toolsetsMap) +:+ " toolsets.")) ;;;
  let addr := JoinHostPort (Address cfg) (pretty (Port cfg)) in
  let s := {| version := Version cfg;
              srv_Addr := addr;
              listener := None;
              sources := sourcesMap;
              authServices := authServicesMap;
              tools := toolsMap;
              toolsets := toolsetsMap |} in
  try (apiRouter env s) ;;;
  try (mcpRouter env s) ;;;
  ret s.

(** [s.listener = l]. *)
Definition set_listener (l : option Listener) (s : Server) : Server :=
  {| version := version s;
     srv_Addr := srv_Addr s;
     listener := l;
     sources := sources s;
     authServices := authServices s;
     tools := tools s;
     toolsets := toolsets s |}.

(** [(s *Server) Listen]. [lcListen] is what [lc.Listen(ctx, "tcp", addr)]
    answers at this call; the receiver is returned with the error. *)
Definition Listen (lcListen : string → result Listener) (s : Server)
    (tr : list Event) : (Server * option error) * list Event :=
  match listener s with
  | Some l =>
      ((s, Some (errorString
                   ("server is already listening: " +:+ listener_Addr env l))), tr)
  | None =>
      match lcListen (srv_Addr s) with
      | Err err =>
          ((set_listener None s,
            Some (Errorf_w
                    ("failed to open listener for " +:+ Quote env (srv_Addr s) +:+ ": ")
                    err)), tr)
      | Ok l =>
          ((set_listener (Some l) s, None),
           tr ++ [Log ("server listening on " +:+ srv_Addr s)])
      end
  end.

(** [Listen] called once per element of [calls] on the same server;
    the errors returned, in order, and the server afterwards. *)
Fixpoint ListenAll (calls : list (string → result Listener)) (s : Server)
    (tr : list Event) : list (option error) * Server * list Event :=
  match calls with
  | [] => ([], s, tr)
  | lcListen :: rest =>
      let '((s', err), tr') := Listen lcListen s tr in
      let '(errs, s'', tr'') := ListenAll rest s' tr' in
      (err :: errs, s'', tr'')
  end.

(** What [NewServer] returns to its caller: a server pointer and an
    error, one of them nil. *)
Definition returned (r : result Server) : option Server * option error :=
  match r with
  | Ok s => (Some s, None)
  | Err e => (None, Some e)
  end.

(** *** The four build loops, one shape

    Each loop body announces the component, calls its constructor,
    wraps a failure with the component's name, and stores the result. *)
Definition initEntry {A B : Type} (ev : string → Event) (prefix : string)
    (f : A → result B) (name : string) (x : A) (acc : gmap string B)
    : M (gmap string B) :=
  v <~ (emit (ev name) ;;;
        match f x with
        | Err err => fail (Errorf_w (prefix +:+ Quote env name +:+ ": ") err)
        | Ok v => ret v
        end) ;;
  ret (<[name := v]> acc).

Definition okOf {A} (r : result A) : option A :=
  match r with
  | Ok a => Some a
  | Err _ => None
  end.

(** The maps a build that gets that far has made. *)
Definition builtSources (cfg : ServerConfig) : gmap string Source :=
  omap (λ sc, okOf (source_Initialize sc)) (SourceConfigs cfg).

Definition builtAuthServices (cfg : ServerConfig) : gmap string AuthService :=
  omap (λ sc, okOf (auth_Initialize sc)) (AuthServiceConfigs cfg).

Definition builtTools (cfg : ServerConfig) : gmap string Tool :=
  omap (λ tc, okOf (tool_Initialize tc (builtSources cfg))) (ToolConfigs cfg).

(** The toolset configurations the last loop ranges over. *)
Definition mergedToolsetConfigs (cfg : ServerConfig) : gmap string ToolsetConfig :=
  <[EmptyString := defaultToolsetConfig (builtTools cfg)]> (ToolsetConfigs cfg).

Definition is_SourceInit (ev : Event) : bool :=
  match ev with SourceInit _ => true | _ => false end.
Definition is_ToolInit (ev : Event) : bool :=
  match ev with ToolInit _ _ => true | _ => false end.
Definition is_ToolsetInit (ev : Event) : bool :=
  match ev with ToolsetInit _ _ => true | _ => false end.

(** The steps before the first loop pass. *)
Definition setup_ok (cfg : ServerConfig) : Prop :=
  CreateTelemetryInstrumentation env (Version cfg) = None
  ∧ SeverityToLevel env (LogLevel cfg) = None
  ∧ (LoggingFormat cfg = "json" ∨ LoggingFormat cfg = "standard").

Definition sources_ok (cfg : ServerConfig) : Prop :=
  map_Forall (λ _ sc, is_Ok (source_Initialize sc)) (SourceConfigs cfg).

Definition authServices_ok (cfg : ServerConfig) : Prop :=
  map_Forall (λ _ sc, is_Ok (auth_Initialize sc)) (AuthServiceConfigs cfg).

Definition tools_ok (cfg : ServerConfig) : Prop :=
  map_Forall (λ _ tc, is_Ok (tool_Initialize tc (builtSources cfg))) (ToolConfigs cfg).

Definition toolsets_ok (cfg : ServerConfig) : Prop :=
  map_Forall
    (λ _ tc, is_Ok (toolset_Initialize env tc (Version cfg) (builtTools cfg)))
    (mergedToolsetConfigs cfg).

Definition builtToolsets (cfg : ServerConfig) : gmap string Toolset :=
  omap (λ tc, okOf (toolset_Initialize env tc (Version cfg) (builtTools cfg)))
       (mergedToolsetConfigs cfg).

(** The server a build that passes every loop hands to the routers. *)
Definition builtServer (cfg : ServerConfig) : Server :=
  {| version := Version cfg;
     srv_Addr := JoinHostPort (Address cfg) (pretty (Port cfg));
     listener := None;
     sources := builtSources cfg;
     authServices := builtAuthServices cfg;
     tools := builtTools cfg;
     toolsets := builtToolsets cfg |}.

(** The events of a run up to the end of each loop. *)
Definition sourcesTrace (cfg : ServerConfig) : list Event :=
  (SourceInit <$> (range _ (SourceConfigs cfg)).*1)
  ++ [Log ("Initialized " +:+ pretty (size (builtSources cfg)) +:+ " sources.")].

Definition authServicesTrace (cfg : ServerConfig) : list Event :=
  sourcesTrace cfg
  ++ (AuthServiceInit <$> (range _ (AuthServiceConfigs cfg)).*1)
  ++ [Log ("Initialized " +:+ pretty (size (builtAuthServices cfg)) +:+ " authServices.")].

Definition toolEvent (cfg : ServerConfig) (name : string) : Event :=
  ToolInit name (builtSources cfg).

Definition toolsTrace (cfg : ServerConfig) : list Event :=
  authServicesTrace cfg
  ++ (toolEvent cfg <$> (range _ (ToolConfigs cfg)).*1)
  ++ [Log ("Initialized " +:+ pretty (size (builtTools cfg)) +:+ " tools.")].

Definition toolsetEvent (cfg : ServerConfig) (name : string) : Event :=
  ToolsetInit name (builtTools cfg).

Definition toolsetsTrace (cfg : ServerConfig) : list Event :=
  toolsTrace cfg
  ++ (toolsetEvent cfg <$> (range _ (mergedToolsetConfigs cfg)).*1)
  ++ [Log ("Initialized " +:+ pretty (size (builtToolsets cfg)) +:+ " toolsets.")].

(** A loop over [cfgm] stopped at entry [n]: what it returned and the
    events it left. *)
Definition stopped_at {A B : Type} (ev : string → Event) (prefix : string)
    (f : A → result B) (cfgm : gmap string A)
    (n : string) (r : result Server) (new : list Event) : Prop :=
  ∃ pre x post cause,
    range A cfgm = pre ++ (n, x) :: post
    ∧ Forall (λ p, is_Ok (f p.2)) pre
    ∧ f x = Err cause
    ∧ r = Err (Errorf_w (prefix +:+ Quote env n +:+ ": ") cause)
    ∧ new = (ev <$> pre.*1) ++ [ev n].

(** The runs of [NewServer], by where they end. *)
Inductive Run (cfg : ServerConfig) : result Server → list Event → Prop :=
  | run_setup_fails e :
      ¬ setup_ok cfg → Run cfg (Err e) []
  | run_source_fails n r new :
      setup_ok cfg →
      stopped_at SourceInit "unable to initialize source " source_Initialize
        (SourceConfigs cfg) n r new →
      Run cfg r new
  | run_authService_fails n r new :
      setup_ok cfg → sources_ok cfg →
      stopped_at AuthServiceInit "unable to initialize auth service " auth_Initialize
        (AuthServiceConfigs cfg) n r new →
      Run cfg r (sourcesTrace cfg ++ new)
  | run_tool_fails n r new :
      setup_ok cfg → sources_ok cfg → authServices_ok cfg →
      stopped_at (toolEvent cfg) "unable to initialize tool "
        (λ tc, tool_Initialize tc (builtSources cfg)) (ToolConfigs cfg) n r new →
      Run cfg r (authServicesTrace cfg ++ new)
  | run_toolset_fails n r new :
      setup_ok cfg → sources_ok cfg → authServices_ok cfg → tools_ok cfg →
      stopped_at (toolsetEvent cfg) "unable to initialize toolset "
        (λ tc, toolset_Initialize env tc (Version cfg) (builtTools cfg))
        (mergedToolsetConfigs cfg) n r new →
      Run cfg r (toolsTrace cfg ++ new)
  | run_router_fails e :
      setup_ok cfg → sources_ok cfg → authServices_ok cfg → tools_ok cfg →
      toolsets_ok cfg →
      (apiRouter env (builtServer cfg) = Some e
       ∨ (apiRouter env (builtServer cfg) = None
          ∧ mcpRouter env (builtServer cfg) = Some e)) →
      Run cfg (Err e) (toolsetsTrace cfg)
  | run_ok :
      setup_ok cfg → sources_ok cfg → authServices_ok cfg → tools_ok cfg →
      toolsets_ok cfg →
      apiRouter env (builtServer cfg) = None →
      mcpRouter env (builtServer cfg) = None →
      Run cfg (Ok (builtServer cfg)) (toolsetsTrace cfg).

(** Every [Q] event of a trace comes before every [P] event of it. *)
Definition all_before (Q P : Event → bool) (tr : list Event) : Prop :=
  ∀ i j a b,
    tr !! i = Some a → P a = true → tr !! j = Some b → Q b = true → j < i.

(** A tool constructor only ever sees the sources built, a toolset
    constructor the tools built. *)
Definition sees_built (cfg : ServerConfig) (ev : Event) : Prop :=
  match ev with
  | ToolInit _ m => m = builtSources cfg
  | ToolsetInit _ m => m = builtTools cfg
  | _ => True
  end.

(** The calls among [errs] that returned a nil error. *)
Fixpoint successes (errs : list (option error)) : nat :=
  match errs with
  | [] => 0
  | None :: rest => S (successes rest)
  | Some _ :: rest => successes rest
  end.

(** ** Properties of the loops *)

Lemma forRange_initEntry_run {A B : Type} (ev : string → Event) (prefix : string)
    (f : A → result B) (entries : list (string * A)) (acc : gmap string B)
    (tr : list Event) :
  (∃ m, forRange (initEntry ev prefix f) entries acc tr
          = (Ok m, tr ++ (ev <$> entries.*1))
        ∧ Forall (λ p, is_Ok (f p.2)) entries
        ∧ (NoDup entries.*1 →
           ∀ n, m !! n = match (list_to_map entries : gmap string A) !! n with
                         | Some x => okOf (f x)
                         | None => acc !! n
                         end))
  ∨ (∃ pre n x post cause,
        entries = pre ++ (n, x) :: post
        ∧ Forall (λ p, is_Ok (f p.2)) pre
        ∧ f x = Err cause
        ∧ forRange (initEntry ev prefix f) entries acc tr
          = (Err (Errorf_w (prefix +:+ Quote env n +:+ ": ") cause),
             tr ++ (ev <$> pre.*1) ++ [ev n])).
Proof.
  revert acc tr. induction entries as [|[k x] rest IH]; intros acc tr.
  - left. exists acc. cbn. rewrite app_nil_r. split; [done|]. split; [constructor|].
    intros _ n. by rewrite lookup_empty.
  - destruct (f x) as [v|cause] eqn:Hf.
    + assert (forRange (initEntry ev prefix f) ((k, x) :: rest) acc tr
              = forRange (initEntry ev prefix f) rest (<[k:=v]> acc) (tr ++ [ev k]))
        as Hstep.
      { cbn [forRange]. unfold bind at 1. unfold initEntry at 1.
        unfold bind, emit, ret, fail. by rewrite Hf. }
      destruct (IH (<[k:=v]> acc) (tr ++ [ev k])) as
        [(m & Hrun & Hall & Hm) | (pre & n & y & post & c & Hrest & Hpre & Hy & Hrun)].
      * left. exists m. rewrite Hstep, Hrun. cbn. rewrite <- app_assoc. split; [done|].
        split; [constructor; [by eexists | done]|].
        intros Hnd n. cbn in Hnd. apply NoDup_cons in Hnd as [Hk Hnd].
        rewrite (Hm Hnd n). cbn. destruct (decide (k = n)) as [->|Hne].
        -- rewrite !lookup_insert_eq, (not_elem_of_list_to_map_1 rest n Hk).
           cbn. by rewrite Hf.
        -- rewrite !lookup_insert_ne by done. done.
      * right. exists ((k, x) :: pre), n, y, post, c. rewrite Hstep, Hrun, Hrest. cbn.
        rewrite <- app_assoc. repeat split; try done.
        constructor; [by eexists | done].
    + right. exists [], k, x, rest, cause. cbn [forRange]. unfold bind at 1.
      unfold initEntry at 1. unfold bind, emit, ret, fail. rewrite Hf.
      cbn. repeat split; done.
Qed.

Lemma range_NoDup {A : Type} (m : gmap string A) : NoDup (range A m).*1.
Proof. rewrite (range_perm A m). apply NoDup_fst_map_to_list. Qed.

Lemma range_elem_of {A : Type} (m : gmap string A) (n : string) (x : A) :
  (n, x) ∈ range A m ↔ m !! n = Some x.
Proof. rewrite (range_perm A m). apply elem_of_map_to_list. Qed.

Lemma range_keys {A : Type} (m : gmap string A) (n : string) :
  n ∈ (range A m).*1 ↔ is_Some (m !! n).
Proof.
  rewrite list_elem_of_fmap. split.
  - intros ([k x] & -> & Hin). apply range_elem_of in Hin. by eexists.
  - intros [x Hx]. exists (n, x). split; [done|]. by apply range_elem_of.
Qed.

Lemma range_to_map {A : Type} (m : gmap string A) :
  (list_to_map (range A m) : gmap string A) = m.
Proof.
  transitivity (list_to_map (map_to_list m) : gmap string A).
  - apply list_to_map_proper; [apply range_NoDup | apply range_perm].
  - apply list_to_map_to_list.
Qed.

(** A loop over a configuration map either builds every entry, or stops
    at the first entry (in visiting order) whose constructor fails. *)
Lemma range_loop_run {A B : Type} (ev : string → Event) (prefix : string)
    (f : A → result B) (cfgm : gmap string A) (tr : list Event) :
  (map_Forall (λ _ x, is_Ok (f x)) cfgm
   ∧ forRange (initEntry ev prefix f) (range A cfgm) ∅ tr
     = (Ok (omap (λ x, okOf (f x)) cfgm), tr ++ (ev <$> (range A cfgm).*1)))
  ∨ (∃ pre n x post cause,
        range A cfgm = pre ++ (n, x) :: post
        ∧ Forall (λ p, is_Ok (f p.2)) pre
        ∧ f x = Err cause
        ∧ forRange (initEntry ev prefix f) (range A cfgm) ∅ tr
          = (Err (Errorf_w (prefix +:+ Quote env n +:+ ": ") cause),
             tr ++ (ev <$> pre.*1) ++ [ev n])).
Proof.
  destruct (forRange_initEntry_run ev prefix f (range A cfgm) ∅ tr)
    as [(m & Hrun & Hall & Hm) | Hfail]; [left | by right].
  split.
  - intros n x Hx. apply range_elem_of in Hx.
    rewrite Forall_forall in Hall. apply (Hall (n, x)), Hx.
  - rewrite Hrun. f_equal. f_equal. apply map_eq. intros n.
    rewrite (Hm (range_NoDup cfgm) n), range_to_map, lookup_omap, lookup_empty.
    by destruct (cfgm !! n).
Qed.

(** A failing entry makes the loop fail, whatever the visiting order. *)
Lemma range_loop_fails {A B : Type} (ev : string → Event) (prefix : string)
    (f : A → result B) (cfgm : gmap string A) (tr : list Event)
    (n : string) (x : A) :
  cfgm !! n = Some x → is_Err (f x) →
  is_Err (forRange (initEntry ev prefix f) (range A cfgm) ∅ tr).1.
Proof.
  intros Hx Hfx.
  destruct (range_loop_run ev prefix f cfgm tr)
    as [[Hall _] | (pre & k & y & post & c & _ & _ & _ & Hrun)].
  - exfalso. exact (not_Ok_Err _ (Hall n x Hx) Hfx).
  - rewrite Hrun. by eexists.
Qed.

Lemma bind_Ok {A B} (m : M A) (k : A → M B) tr a tr' :
  m tr = (Ok a, tr') → bind m k tr = k a tr'.
Proof. intros H. unfold bind. by rewrite H. Qed.

Lemma bind_Err {A B} (m : M A) (k : A → M B) tr e tr' :
  m tr = (Err e, tr') → bind m k tr = (Err e, tr').
Proof. intros H. unfold bind. by rewrite H. Qed.

Lemma NewServer_unfold (cfg : ServerConfig) :
  NewServer cfg =
    (check "unable to create telemetry instrumentation: "
       (CreateTelemetryInstrumentation env (Version cfg)) ;;;
     check "unable to initialize http log: " (SeverityToLevel env (LogLevel cfg)) ;;;
     (if decide (LoggingFormat cfg = "json") then ret tt
      else if decide (LoggingFormat cfg = "standard") then ret tt
      else fail (errorString
                   ("invalid Logging format: " +:+ Quote env (LoggingFormat cfg)))) ;;;
     sourcesMap <~ forRange
         (initEntry SourceInit "unable to initialize source " source_Initialize)
         (range _ (SourceConfigs cfg)) ∅ ;;
     emit (Log ("Initialized " +:+ pretty (size sourcesMap) +:+ " sources.")) ;;;
     authServicesMap <~ forRange
         (initEntry AuthServiceInit "unable to initialize auth service " auth_Initialize)
         (range _ (AuthServiceConfigs cfg)) ∅ ;;
     emit (Log ("Initialized " +:+ pretty (size authServicesMap) +:+ " authServices.")) ;;;
     toolsMap <~ forRange
         (initEntry (λ name, ToolInit name sourcesMap) "unable to initialize tool "
            (λ tc, tool_Initialize tc sourcesMap))
         (range _ (ToolConfigs cfg)) ∅ ;;
     emit (Log ("Initialized " +:+ pretty (size toolsMap) +:+ " tools.")) ;;;
     toolsetsMap <~ forRange
         (initEntry (λ name, ToolsetInit name toolsMap) "unable to initialize toolset "
            (λ tc, toolset_Initialize env tc (Version cfg) toolsMap))
         (range _ (<[EmptyString := defaultToolsetConfig toolsMap]> (ToolsetConfigs cfg)))
         ∅ ;;
     emit (Log ("Initialized " +:+ pretty (size toolsetsMap) +:+ " toolsets.")) ;;;
     let s := {| version := Version cfg;
                 srv_Addr := JoinHostPort (Address cfg) (pretty (Port cfg));
                 listener := None;
                 sources := sourcesMap;
                 authServices := authServicesMap;
                 tools := toolsMap;
                 toolsets := toolsetsMap |} in
     try (apiRouter env s) ;;;
     try (mcpRouter env s) ;;;
     ret s).
Proof. reflexivity. Qed.

(** Every run of [NewServer] from the empty trace is one of [Run]. *)
Lemma NewServer_Run (cfg : ServerConfig) :
  Run cfg (NewServer cfg []).1 (NewServer cfg []).2.
Proof.
  rewrite NewServer_unfold.
  (* setup *)
  destruct (CreateTelemetryInstrumentation env (Version cfg)) as [e|] eqn:Htel.
  { cbn. apply run_setup_fails. intros (H & _). congruence. }
  rewrite (bind_Ok _ _ [] tt []) by reflexivity.
  destruct (SeverityToLevel env (LogLevel cfg)) as [e|] eqn:Hsev.
  { cbn. apply run_setup_fails. intros (_ & H & _). congruence. }
  rewrite (bind_Ok _ _ [] tt []) by reflexivity.
  assert (Hfmt : (LoggingFormat cfg = "json" ∨ LoggingFormat cfg = "standard")
                 ∨ ¬ (LoggingFormat cfg = "json" ∨ LoggingFormat cfg = "standard")).
  { destruct (decide (LoggingFormat cfg = "json")); [by left; left|].
    destruct (decide (LoggingFormat cfg = "standard")); [by left; right|].
    right. intros [?|?]; done. }
  destruct Hfmt as [Hfmt | Hfmt]; cycle 1.
  { rewrite (bind_Err _ _ [] (errorString
        ("invalid Logging format: " +:+ Quote env (LoggingFormat cfg))) []).
    - cbn. apply run_setup_fails. intros (_ & _ & H). done.
    - repeat case_decide; try done; exfalso; apply Hfmt; auto. }
  rewrite (bind_Ok _ _ [] tt []) by (repeat case_decide; try done; destruct Hfmt; done).
  assert (Hsetup : setup_ok cfg) by done.
  (* sources *)
  destruct (range_loop_run SourceInit "unable to initialize source "
              source_Initialize (SourceConfigs cfg) [])
    as [[Hsrc Hrun] | (pre & n & x & post & c & Hr & Hpre & Hx & Hrun)].
  2:{ rewrite (bind_Err _ _ _ _ _ Hrun). cbn.
      eapply run_source_fails; [done|]. by exists pre, x, post, c. }
  rewrite (bind_Ok _ _ _ _ _ Hrun). fold (builtSources cfg).
  rewrite (bind_Ok _ _ _ tt (sourcesTrace cfg)) by reflexivity.
  (* auth services *)
  destruct (range_loop_run AuthServiceInit "unable to initialize auth service "
              auth_Initialize (AuthServiceConfigs cfg) (sourcesTrace cfg))
    as [[Hauth Hrun2] | (pre & n & x & post & c & Hr & Hpre & Hx & Hrun2)].
  2:{ rewrite (bind_Err _ _ _ _ _ Hrun2). cbn.
      eapply run_authService_fails; [done..|]. by exists pre, x, post, c. }
  rewrite (bind_Ok _ _ _ _ _ Hrun2). fold (builtAuthServices cfg).
  rewrite (bind_Ok _ _ _ tt (authServicesTrace cfg))
    by (unfold authServicesTrace, emit; by rewrite <- app_assoc).
  (* tools *)
  destruct (range_loop_run (toolEvent cfg) "unable to initialize tool "
              (λ tc, tool_Initialize tc (builtSources cfg)) (ToolConfigs cfg)
              (authServicesTrace cfg))
    as [[Htool Hrun3] | (pre & n & x & post & c & Hr & Hpre & Hx & Hrun3)].
  2:{ rewrite (bind_Err _ _ _ _ _ Hrun3). cbn.
      eapply run_tool_fails; [done..|]. by exists pre, x, post, c. }
  rewrite (bind_Ok _ _ _ _ _ Hrun3). fold (builtTools cfg).
  rewrite (bind_Ok _ _ _ tt (toolsTrace cfg))
    by (unfold toolsTrace, emit; by rewrite <- app_assoc).
  (* toolsets *)
  fold (mergedToolsetConfigs cfg).
  destruct (range_loop_run (toolsetEvent cfg) "unable to initialize toolset "
              (λ tc, toolset_Initialize env tc (Version cfg) (builtTools cfg))
              (mergedToolsetConfigs cfg) (toolsTrace cfg))
    as [[Hts Hrun4] | (pre & n & x & post & c & Hr & Hpre & Hx & Hrun4)].
  2:{ rewrite (bind_Err _ _ _ _ _ Hrun4). cbn.
      eapply run_toolset_fails; [done..|]. by exists pre, x, post, c. }
  rewrite (bind_Ok _ _ _ _ _ Hrun4). fold (builtToolsets cfg).
  rewrite (bind_Ok _ _ _ tt (toolsetsTrace cfg))
    by (unfold toolsetsTrace, emit; by rewrite <- app_assoc).
  (* routers *)
  cbv zeta. fold (builtServer cfg).
  destruct (apiRouter env (builtServer cfg)) as [e|] eqn:Hapi.
  { cbn. apply run_router_fails; auto. }
  rewrite (bind_Ok _ _ _ tt (toolsetsTrace cfg)) by reflexivity.
  destruct (mcpRouter env (builtServer cfg)) as [e|] eqn:Hmcp.
  { cbn. apply run_router_fails; auto. }
  rewrite (bind_Ok _ _ _ tt (toolsetsTrace cfg)) by reflexivity.
  cbn. by apply run_ok.
Qed.

Lemma returned_Ok (r : result Server) (s : Server) :
  returned r = (Some s, None) ↔ r = Ok s.
Proof. destruct r; cbn; split; intros H; by simplify_eq. Qed.

Lemma lookup_omap_ok {A B : Type} (f : A → result B) (m : gmap string A) (n : string) :
  map_Forall (λ _ x, is_Ok (f x)) m →
  is_Some (omap (λ x, okOf (f x)) m !! n) ↔ is_Some (m !! n).
Proof.
  intros Hall. rewrite lookup_omap. destruct (m !! n) as [x|] eqn:Hx; cbn.
  - destruct (Hall n x Hx) as [b ->]. cbn. split; intros _; by eexists.
  - done.
Qed.

Lemma dom_omap_ok {A B : Type} (f : A → result B) (m : gmap string A) :
  map_Forall (λ _ x, is_Ok (f x)) m →
  dom (omap (λ x, okOf (f x)) m) = dom m.
Proof.
  intros Hall. apply set_eq. intros n. rewrite !elem_of_dom. by apply lookup_omap_ok.
Qed.

(** ** The default toolset *)

(** C1. After a successful [NewServer], the toolset map holds under the
    empty name the toolset initialised from the configuration whose tool
    names are exactly the configured tool names, each once; this holds
    for every configuration, whatever it declares under the empty name. *)
Theorem default_toolset_has_all_tools (cfg : ServerConfig) (s : Server) :
  returned (NewServer cfg []).1 = (Some s, None) →
  ∃ names ts,
    NoDup names
    ∧ (∀ n, n ∈ names ↔ is_Some (ToolConfigs cfg !! n))
    ∧ dom (tools s) = dom (ToolConfigs cfg)
    ∧ toolset_Initialize env {| Name := EmptyString; ToolNames := names |}
        (Version cfg) (tools s) = Ok ts
    ∧ toolsets s !! EmptyString = Some ts.
Proof.
  intros Hret. apply returned_Ok in Hret.
  pose proof (NewServer_Run cfg) as Hrun. rewrite Hret in Hrun.
  inversion Hrun as [ | ? ? ? ? Hst | ? ? ? ? ? Hst | ? ? ? ? ? ? Hst
                    | ? ? ? ? ? ? ? Hst | | Hsetup Hsrc Hauth Htool Hts Hapi Hmcp Hs ];
    try (destruct Hst as (? & ? & ? & ? & _ & _ & _ & ? & _); discriminate).
  assert (Hdef : mergedToolsetConfigs cfg !! EmptyString
                 = Some (defaultToolsetConfig (builtTools cfg))).
  { unfold mergedToolsetConfigs. apply lookup_insert_eq. }
  destruct (Hts _ _ Hdef) as [ts Hinit].
  exists (allToolNames (builtTools cfg)), ts. cbn.
  split; [apply range_NoDup|]. split.
  { intros n. unfold allToolNames. rewrite range_keys. by apply lookup_omap_ok. }
  split; [by apply dom_omap_ok|]. split; [exact Hinit|].
  unfold builtToolsets. rewrite lookup_omap, Hdef. cbn. by rewrite Hinit.
Qed.

(** ** All or nothing *)

(** C2. When the constructor of a source, of an auth service, of a tool
    (called with the sources built) or of a toolset the last loop visits
    (called with the tools built) fails, [NewServer] returns a nil server
    and a non-nil error. *)
Theorem build_all_or_nothing (cfg : ServerConfig) :
  (∃ n sc, SourceConfigs cfg !! n = Some sc ∧ is_Err (source_Initialize sc))
  ∨ (∃ n sc, AuthServiceConfigs cfg !! n = Some sc ∧ is_Err (auth_Initialize sc))
  ∨ (∃ n tc, ToolConfigs cfg !! n = Some tc
             ∧ is_Err (tool_Initialize tc (builtSources cfg)))
  ∨ (∃ n tc, mergedToolsetConfigs cfg !! n = Some tc
             ∧ is_Err (toolset_Initialize env tc (Version cfg) (builtTools cfg))) →
  ∃ e, returned (NewServer cfg []).1 = (None, Some e).
Proof.
  intros Hfail.
  destruct (NewServer cfg []).1 as [s|e] eqn:Hres; [|by exists e].
  exfalso. pose proof (NewServer_Run cfg) as Hrun. rewrite Hres in Hrun.
  inversion Hrun as [ | ? ? ? ? Hst | ? ? ? ? ? Hst | ? ? ? ? ? ? Hst
                    | ? ? ? ? ? ? ? Hst | | Hsetup Hsrc Hauth Htool Hts Hapi Hmcp Hs ];
    try (destruct Hst as (? & ? & ? & ? & _ & _ & _ & ? & _); discriminate).
  destruct Hfail as [(n & x & Hx & Hf) | [(n & x & Hx & Hf)
                   | [(n & x & Hx & Hf) | (n & x & Hx & Hf)]]].
  - exact (not_Ok_Err _ (Hsrc n x Hx) Hf).
  - exact (not_Ok_Err _ (Hauth n x Hx) Hf).
  - exact (not_Ok_Err _ (Htool n x Hx) Hf).
  - exact (not_Ok_Err _ (Hts n x Hx) Hf).
Qed.

(** ** Build order *)

Lemma all_before_none (Q P : Event → bool) (tr : list Event) :
  Forall (λ e, P e = false) tr → all_before Q P tr.
Proof.
  intros Hno i j a b Ha HP _ _. exfalso.
  rewrite Forall_forall in Hno.
  assert (P a = false) by (apply Hno; by eapply list_elem_of_lookup_2).
  congruence.
Qed.

Lemma all_before_app (Q P : Event → bool) (t1 t2 : list Event) :
  all_before Q P t1 → Forall (λ e, Q e = false) t2 → all_before Q P (t1 ++ t2).
Proof.
  intros H1 Hno i j a b Ha HP Hb HQ.
  rewrite Forall_forall in Hno.
  destruct (decide (j < length t1)) as [Hj|Hj].
  - destruct (decide (i < length t1)) as [Hi|Hi]; [|lia].
    rewrite lookup_app_l in Ha, Hb by done. eauto.
  - exfalso. rewrite lookup_app_r in Hb by lia.
    assert (Q b = false) by (apply Hno; by eapply list_elem_of_lookup_2).
    congruence.
Qed.

Lemma Forall_events {A : Type} (P : Event → Prop) (ev : A → Event) (l : list A) :
  (∀ n, P (ev n)) → Forall P (ev <$> l).
Proof. intros H. apply Forall_fmap, Forall_true. intros x. apply H. Qed.

Ltac events :=
  unfold toolsetsTrace, toolsTrace, authServicesTrace, sourcesTrace;
  repeat first
    [ apply Forall_app_2
    | apply Forall_events; intros ?
    | apply Forall_cons_2
    | apply Forall_nil_2
    | progress cbn
    | reflexivity
    | done ].

Lemma stopped_at_events {A B : Type} (P : Event → Prop) (ev : string → Event)
    (prefix : string) (f : A → result B) (cfgm : gmap string A)
    (n : string) (r : result Server) (new : list Event) :
  (∀ k, P (ev k)) → stopped_at ev prefix f cfgm n r new → Forall P new.
Proof.
  intros HP (pre & x & post & c & _ & _ & _ & _ & ->).
  apply Forall_app_2; [by apply Forall_events|]. by repeat constructor.
Qed.

Lemma stopped_at_Err {A B : Type} (ev : string → Event)
    (prefix : string) (f : A → result B) (cfgm : gmap string A)
    (n : string) (r : result Server) (new : list Event) :
  stopped_at ev prefix f cfgm n r new →
  ∃ x cause, cfgm !! n = Some x ∧ f x = Err cause
             ∧ r = Err (Errorf_w (prefix +:+ Quote env n +:+ ": ") cause)
             ∧ ev n ∈ new.
Proof.
  intros (pre & x & post & c & Hr & Hpre & Hx & -> & ->).
  exists x, c. split.
  { apply range_elem_of. rewrite Hr. apply elem_of_app. right. by left. }
  split; [done|]. split; [done|]. apply elem_of_app. right. by left.
Qed.

(** The loop stops at the first failure: an entry it announced and
    whose constructor fails is the one whose error it returned. *)
Lemma stopped_at_first {A B : Type} (ev : string → Event)
    (prefix : string) (f : A → result B) (cfgm : gmap string A)
    (n : string) (r : result Server) (new : list Event) :
  (∀ a b, ev a = ev b → a = b) →
  stopped_at ev prefix f cfgm n r new →
  ∀ k x cause, ev k ∈ new → cfgm !! k = Some x → f x = Err cause →
               r = Err (Errorf_w (prefix +:+ Quote env k +:+ ": ") cause).
Proof.
  intros Hinj (pre & y & post & c & Hr & Hpre & Hy & -> & ->) k x cause Hin Hx Hfx.
  apply elem_of_app in Hin as [Hin | Hin].
  - exfalso. apply list_elem_of_fmap in Hin as (k' & Hk & Hin). apply Hinj in Hk as <-.
    apply list_elem_of_fmap in Hin as ([k' z] & -> & Hin). cbn in Hx.
    assert ((k', z) ∈ range A cfgm) as Hz
      by (rewrite Hr; apply elem_of_app; by left).
    apply range_elem_of in Hz. assert (z = x) as -> by congruence.
    rewrite Forall_forall in Hpre. apply Hpre in Hin. cbn in Hin.
    apply (not_Ok_Err _ Hin). by eexists.
  - apply list_elem_of_singleton in Hin. apply Hinj in Hin as ->.
    assert ((n, y) ∈ range A cfgm) as Hz
      by (rewrite Hr; apply elem_of_app; right; by left).
    apply range_elem_of in Hz. assert (y = x) as -> by congruence.
    by assert (c = cause) as -> by congruence.
Qed.

Lemma no_ToolInit_elem (tr : list Event) (n : string) (m : gmap string Source) :
  Forall (λ e, is_ToolInit e = false) tr → ToolInit n m ∈ tr → False.
Proof.
  intros Hno Hin. rewrite Forall_forall in Hno. by apply Hno in Hin.
Qed.

Lemma no_ToolsetInit_elem (tr : list Event) (n : string) (m : gmap string Tool) :
  Forall (λ e, is_ToolsetInit e = false) tr → ToolsetInit n m ∈ tr → False.
Proof.
  intros Hno Hin. rewrite Forall_forall in Hno. by apply Hno in Hin.
Qed.

Lemma SourceInit_in_trace (cfg : ServerConfig) (k : string) :
  is_Some (SourceConfigs cfg !! k) → SourceInit k ∈ sourcesTrace cfg.
Proof.
  intros Hk. apply elem_of_app. left. apply list_elem_of_fmap.
  exists k. split; [done|]. by apply range_keys.
Qed.

Lemma ToolInit_in_trace (cfg : ServerConfig) (k : string) :
  is_Some (ToolConfigs cfg !! k) → ToolInit k (builtSources cfg) ∈ toolsTrace cfg.
Proof.
  intros Hk. apply elem_of_app. right. apply elem_of_app. left.
  apply list_elem_of_fmap. exists k. split; [done|]. by apply range_keys.
Qed.

Ltac stopped H :=
  eapply stopped_at_events; [|exact H]; intros ?; reflexivity.

Lemma Run_sources_before_tools (cfg : ServerConfig) r tr :
  Run cfg r tr → all_before is_SourceInit is_ToolInit tr.
Proof.
  assert (Ha : all_before is_SourceInit is_ToolInit (sourcesTrace cfg))
    by (apply all_before_none; events).
  assert (Hb : all_before is_SourceInit is_ToolInit (authServicesTrace cfg))
    by (apply all_before_app; [done | events]).
  assert (Hc : all_before is_SourceInit is_ToolInit (toolsTrace cfg))
    by (apply all_before_app; [done | events]).
  assert (Hd : all_before is_SourceInit is_ToolInit (toolsetsTrace cfg))
    by (apply all_before_app; [done | events]).
  destruct 1 as [ | ? ? ? ? Hst | ? ? ? ? ? Hst | ? ? ? ? ? ? Hst
                | ? ? ? ? ? ? ? Hst | | ].
  - apply all_before_none; events.
  - apply all_before_none. stopped Hst.
  - apply all_before_app; [done|]. stopped Hst.
  - apply all_before_app; [done|]. stopped Hst.
  - apply all_before_app; [done|]. stopped Hst.
  - done.
  - done.
Qed.

Lemma Run_tools_before_toolsets (cfg : ServerConfig) r tr :
  Run cfg r tr → all_before is_ToolInit is_ToolsetInit tr.
Proof.
  assert (Hc : Forall (λ e, is_ToolsetInit e = false) (toolsTrace cfg)) by events.
  assert (Hb : Forall (λ e, is_ToolsetInit e = false) (authServicesTrace cfg)).
  { unfold toolsTrace in Hc. by apply Forall_app in Hc as [? _]. }
  assert (Ha : Forall (λ e, is_ToolsetInit e = false) (sourcesTrace cfg)).
  { unfold authServicesTrace in Hb. by apply Forall_app in Hb as [? _]. }
  assert (Hd : all_before is_ToolInit is_ToolsetInit (toolsetsTrace cfg)).
  { apply all_before_app; [by apply all_before_none | events]. }
  destruct 1 as [ | ? ? ? ? Hst | ? ? ? ? ? Hst | ? ? ? ? ? ? Hst
                | ? ? ? ? ? ? ? Hst | | ].
  - apply all_before_none; events.
  - apply all_before_none. stopped Hst.
  - apply all_before_none. apply Forall_app_2; [done|]. stopped Hst.
  - apply all_before_none. apply Forall_app_2; [done|]. stopped Hst.
  - apply all_before_app; [by apply all_before_none|]. stopped Hst.
  - done.
  - done.
Qed.

Lemma Run_sees_built (cfg : ServerConfig) r tr :
  Run cfg r tr → Forall (sees_built cfg) tr.
Proof.
  destruct 1 as [ | ? ? ? ? Hst | ? ? ? ? ? Hst | ? ? ? ? ? ? Hst
                | ? ? ? ? ? ? ? Hst | | ];
    try (apply Forall_app_2; [events | stopped Hst]); try events.
  eapply stopped_at_events; [|exact Hst]. intros ?; exact I.
Qed.

(** A tool constructor runs only after every source was built. *)
Lemma Run_ToolInit (cfg : ServerConfig) r tr n m :
  Run cfg r tr → ToolInit n m ∈ tr →
  sources_ok cfg
  ∧ ∀ k, is_Some (SourceConfigs cfg !! k) → SourceInit k ∈ tr.
Proof.
  assert (Ha : ∀ k, is_Some (SourceConfigs cfg !! k) → SourceInit k ∈ authServicesTrace cfg).
  { intros k Hk. apply elem_of_app. left. by apply SourceInit_in_trace. }
  assert (Hb : ∀ k, is_Some (SourceConfigs cfg !! k) → SourceInit k ∈ toolsTrace cfg).
  { intros k Hk. apply elem_of_app. left. by apply Ha. }
  assert (Hc : ∀ k, is_Some (SourceConfigs cfg !! k) → SourceInit k ∈ toolsetsTrace cfg).
  { intros k Hk. apply elem_of_app. left. by apply Hb. }
  destruct 1 as [ | ? ? ? ? Hst | ? ? ? ? ? Hst | ? ? ? ? ? ? Hst
                | ? ? ? ? ? ? ? Hst | | ]; intros Hin.
  - by apply elem_of_nil in Hin.
  - exfalso. eapply no_ToolInit_elem; [|exact Hin]. stopped Hst.
  - exfalso. eapply no_ToolInit_elem; [|exact Hin].
    apply Forall_app_2; [events | stopped Hst].
  - split; [done|]. intros k Hk. apply elem_of_app. left. by apply Ha.
  - split; [done|]. intros k Hk. apply elem_of_app. left. by apply Hb.
  - split; [done|]. by apply Hc.
  - split; [done|]. by apply Hc.
Qed.

(** A toolset constructor runs only after every tool was built. *)
Lemma Run_ToolsetInit (cfg : ServerConfig) r tr n m :
  Run cfg r tr → ToolsetInit n m ∈ tr →
  tools_ok cfg
  ∧ ∀ k, is_Some (ToolConfigs cfg !! k) → ToolInit k (builtSources cfg) ∈ tr.
Proof.
  assert (Hc : ∀ k, is_Some (ToolConfigs cfg !! k) →
                    ToolInit k (builtSources cfg) ∈ toolsetsTrace cfg).
  { intros k Hk. apply elem_of_app. left. by apply ToolInit_in_trace. }
  destruct 1 as [ | ? ? ? ? Hst | ? ? ? ? ? Hst | ? ? ? ? ? ? Hst
                | ? ? ? ? ? ? ? Hst | | ]; intros Hin.
  - by apply elem_of_nil in Hin.
  - exfalso. eapply no_ToolsetInit_elem; [|exact Hin]. stopped Hst.
  - exfalso. eapply no_ToolsetInit_elem; [|exact Hin].
    apply Forall_app_2; [events | stopped Hst].
  - exfalso. eapply no_ToolsetInit_elem; [|exact Hin].
    apply Forall_app_2; [events | stopped Hst].
  - split; [done|]. intros k Hk. apply elem_of_app. left. by apply ToolInit_in_trace.
  - split; [done|]. by apply Hc.
  - split; [done|]. by apply Hc.
Qed.

Lemma toolEvent_inj (cfg : ServerConfig) (a b : string) :
  toolEvent cfg a = toolEvent cfg b → a = b.
Proof. unfold toolEvent. congruence. Qed.

(** A tool whose constructor was called and failed is the one the build
    reports. *)
Lemma Run_tool_error (cfg : ServerConfig) r tr n m tc cause :
  Run cfg r tr → ToolInit n m ∈ tr →
  ToolConfigs cfg !! n = Some tc → tool_Initialize tc m = Err cause →
  r = Err (Errorf_w ("unable to initialize tool " +:+ Quote env n +:+ ": ") cause).
Proof.
  intros Hrun Hin Htc Hfail.
  assert (m = builtSources cfg) as ->.
  { pose proof (Run_sees_built _ _ _ Hrun) as Hall.
    rewrite Forall_forall in Hall. exact (Hall _ Hin). }
  assert (Hbad : tools_ok cfg → False).
  { intros Hok. apply (not_Ok_Err _ (Hok n tc Htc)). by eexists. }
  destruct Hrun as [ | ? ? ? ? Hst | ? ? ? ? ? Hst | ? ? ? ? ? ? Hst
                   | ? ? ? ? ? ? ? Hst | | ]; try (exfalso; by apply Hbad).
  - by apply elem_of_nil in Hin.
  - exfalso. eapply no_ToolInit_elem; [|exact Hin]. stopped Hst.
  - exfalso. eapply no_ToolInit_elem; [|exact Hin].
    apply Forall_app_2; [events | stopped Hst].
  - apply elem_of_app in Hin as [Hin | Hin].
    { exfalso. eapply no_ToolInit_elem; [|exact Hin]. events. }
    eapply (stopped_at_first (toolEvent cfg)); eauto using toolEvent_inj.
Qed.

(** With the earlier steps passed, a failing tool makes the build fail
    at a tool, with that tool's name and cause. *)
Lemma Run_tool_fails (cfg : ServerConfig) r tr :
  Run cfg r tr → setup_ok cfg → sources_ok cfg → authServices_ok cfg →
  ¬ tools_ok cfg →
  ∃ n tc cause,
    ToolConfigs cfg !! n = Some tc
    ∧ tool_Initialize tc (builtSources cfg) = Err cause
    ∧ ToolInit n (builtSources cfg) ∈ tr
    ∧ r = Err (Errorf_w ("unable to initialize tool " +:+ Quote env n +:+ ": ") cause).
Proof.
  intros Hrun Hsetup Hsrc Hauth Hnot.
  destruct Hrun as [ | n0 ? ? ? Hst | n0 ? ? ? ? Hst | n0 ? ? ? ? ? Hst
                   | ? ? ? ? ? ? ? Hst | | ]; try done.
  - apply stopped_at_Err in Hst as (x & c & Hx & Hfx & _). exfalso.
    apply (not_Ok_Err _ (Hsrc n0 x Hx)). by eexists.
  - apply stopped_at_Err in Hst as (x & c & Hx & Hfx & _). exfalso.
    apply (not_Ok_Err _ (Hauth n0 x Hx)). by eexists.
  - apply stopped_at_Err in Hst as (x & c & Hx & Hfx & -> & Hin).
    exists n0, x, c. repeat split; try done. apply elem_of_app. by right.
Qed.

(** C3. In every run of [NewServer]: each source constructor call comes
    before each tool constructor call, and each tool constructor call
    before each toolset constructor call; a tool constructor is called
    only once every configured source is built, and with the map of all
    of them; a toolset constructor only once every configured tool is
    built; and a tool whose constructor fails makes [NewServer] return
    the error [unable to initialize tool %q: cause], which names the
    tool and wraps the cause. *)
Theorem build_order (cfg : ServerConfig) :
  let r := (NewServer cfg []).1 in
  let tr := (NewServer cfg []).2 in
  all_before is_SourceInit is_ToolInit tr
  ∧ all_before is_ToolInit is_ToolsetInit tr
  ∧ (∀ n m, ToolInit n m ∈ tr →
       sources_ok cfg
       ∧ m = builtSources cfg
       ∧ dom m = dom (SourceConfigs cfg)
       ∧ ∀ k, is_Some (SourceConfigs cfg !! k) → SourceInit k ∈ tr)
  ∧ (∀ n m, ToolsetInit n m ∈ tr →
       tools_ok cfg
       ∧ m = builtTools cfg
       ∧ dom m = dom (ToolConfigs cfg)
       ∧ ∀ k, is_Some (ToolConfigs cfg !! k) → ToolInit k (builtSources cfg) ∈ tr)
  ∧ (∀ n m tc cause,
       ToolInit n m ∈ tr →
       ToolConfigs cfg !! n = Some tc → tool_Initialize tc m = Err cause →
       r = Err (wrapError
                  ("unable to initialize tool " +:+ Quote env n +:+ ": "
                   +:+ Error cause) cause))
  ∧ (setup_ok cfg → sources_ok cfg → authServices_ok cfg → ¬ tools_ok cfg →
     ∃ n tc cause,
       ToolConfigs cfg !! n = Some tc
       ∧ tool_Initialize tc (builtSources cfg) = Err cause
       ∧ ToolInit n (builtSources cfg) ∈ tr
       ∧ returned r
         = (None, Some (wrapError
                          ("unable to initialize tool " +:+ Quote env n +:+ ": "
                           +:+ Error cause) cause))).
Proof.
  intros r tr. pose proof (NewServer_Run cfg) as Hrun. fold r tr in Hrun.
  split; [by eapply Run_sources_before_tools|].
  split; [by eapply Run_tools_before_toolsets|].
  split.
  { intros n m Hin. destruct (Run_ToolInit _ _ _ _ _ Hrun Hin) as [Hok Hall].
    pose proof (Run_sees_built _ _ _ Hrun) as Hsees.
    rewrite Forall_forall in Hsees. pose proof (Hsees _ Hin) as Hm. cbn in Hm.
    subst m. repeat split; try done. by apply dom_omap_ok. }
  split.
  { intros n m Hin. destruct (Run_ToolsetInit _ _ _ _ _ Hrun Hin) as [Hok Hall].
    pose proof (Run_sees_built _ _ _ Hrun) as Hsees.
    rewrite Forall_forall in Hsees. pose proof (Hsees _ Hin) as Hm. cbn in Hm.
    subst m. repeat split; try done. by apply dom_omap_ok. }
  split.
  { intros n m tc cause Hin Htc Hfail.
    rewrite (Run_tool_error _ _ _ _ _ _ _ Hrun Hin Htc Hfail).
    unfold Errorf_w. by rewrite <- !append_assoc. }
  intros Hsetup Hsrc Hauth Hnot.
  destruct (Run_tool_fails _ _ _ Hrun Hsetup Hsrc Hauth Hnot)
    as (n & tc & cause & Htc & Hfail & Hin & ->).
  exists n, tc, cause. repeat split; try done.
  cbn. unfold Errorf_w. by rewrite <- !append_assoc.
Qed.

(** ** Listen *)

Lemma prefix_append (s t : string) : String.prefix s (s +:+ t) = true.
Proof.
  induction s as [|a s IH]; [by destruct t|].
  change (String.prefix (String a s) (String a (s +:+ t)) = true).
  cbn. by destruct (ascii_dec a a).
Qed.

Lemma Listen_listening (lcListen : string → result Listener) (s : Server)
    (tr : list Event) (l : Listener) :
  listener s = Some l →
  Listen lcListen s tr
  = ((s, Some (errorString ("server is already listening: " +:+ listener_Addr env l))),
     tr).
Proof. intros Hl. unfold Listen. by rewrite Hl. Qed.

Lemma ListenAll_listening (calls : list (string → result Listener)) (s : Server)
    (tr : list Event) (l : Listener) :
  listener s = Some l →
  successes (ListenAll calls s tr).1.1 = 0 ∧ (ListenAll calls s tr).1.2 = s.
Proof.
  intros Hl. revert tr. induction calls as [|c calls IH]; intros tr; [done|].
  cbn [ListenAll]. rewrite (Listen_listening c s tr l Hl).
  specialize (IH tr). destruct (ListenAll calls s tr) as [[errs s''] tr''].
  cbn in *. done.
Qed.

(** C9. [Listen] on a server whose listener is set returns an error
    whose text begins [server is already listening] and leaves the
    server, its listener included, as it was; and among any number of
    [Listen] calls on one server at most one returns no error. *)
Theorem Listen_once :
  (∀ (lcListen : string → result Listener) (s : Server) (tr : list Event)
     (l : Listener),
     listener s = Some l →
     ∃ e, Listen lcListen s tr = ((s, Some e), tr)
          ∧ String.prefix "server is already listening" (Error e) = true)
  ∧ (∀ (calls : list (string → result Listener)) (s : Server) (tr : list Event),
       successes (ListenAll calls s tr).1.1 ≤ 1).
Proof.
  split.
  - intros lcListen s tr l Hl. eexists. split; [by apply Listen_listening|].
    cbn [Error].
    change "server is already listening: "
      with ("server is already listening" +:+ ": ").
    rewrite <- append_assoc. apply prefix_append.
  - intros calls. induction calls as [|c calls IH]; intros s tr; [cbn; lia|].
    cbn [ListenAll]. unfold Listen.
    destruct (listener s) as [l|] eqn:Hl.
    + destruct (ListenAll_listening calls s tr l Hl) as [H0 _].
      destruct (ListenAll calls s tr) as [[errs s''] tr'']. cbn in *. lia.
    + destruct (c (srv_Addr s)) as [l|err].
      * destruct (ListenAll_listening calls (set_listener (Some l) s)
                    (tr ++ [Log ("server listening on " +:+ srv_Addr s)]) l eq_refl)
          as [H0 _].
        destruct (ListenAll calls _ _) as [[errs s''] tr'']. cbn in *. lia.
      * specialize (IH (set_listener None s) tr).
        destruct (ListenAll calls _ _) as [[errs s''] tr'']. cbn in *. lia.
Qed.

(** ** Further properties of [NewServer] *)

(** X1. A failing [CreateTelemetryInstrumentation] is reported first,
    and a failing [SeverityToLevel] next, each wrapped with its own
    prefix, before any constructor is called or any line logged. *)
Theorem NewServer_setup_errors (cfg : ServerConfig) :
  (∀ e, CreateTelemetryInstrumentation env (Version cfg) = Some e →
        NewServer cfg []
        = (Err (wrapError ("unable to create telemetry instrumentation: " +:+ Error e) e),
           []))
  ∧ (∀ e, CreateTelemetryInstrumentation env (Version cfg) = None →
          SeverityToLevel env (LogLevel cfg) = Some e →
          NewServer cfg []
          = (Err (wrapError ("unable to initialize http log: " +:+ Error e) e), [])).
Proof.
  split.
  - intros e He. unfold NewServer. rewrite He. reflexivity.
  - intros e Ht He. unfold NewServer. rewrite Ht, He. reflexivity.
Qed.


Lemma Run_Ok (cfg : ServerConfig) (s : Server) (tr : list Event) :
  Run cfg (Ok s) tr →
  s = builtServer cfg ∧ tr = toolsetsTrace cfg
  ∧ setup_ok cfg ∧ sources_ok cfg ∧ authServices_ok cfg ∧ tools_ok cfg
  ∧ toolsets_ok cfg.
Proof.
  inversion 1 as [ | ? ? ? ? Hst | ? ? ? ? ? Hst | ? ? ? ? ? ? Hst
                 | ? ? ? ? ? ? ? Hst | | ];
    try (destruct Hst as (? & ? & ? & ? & _ & _ & _ & ? & _); discriminate).
  done.
Qed.

Lemma NewServer_Ok (cfg : ServerConfig) (s : Server) :
  returned (NewServer cfg []).1 = (Some s, None) →
  s = builtServer cfg ∧ (NewServer cfg []).2 = toolsetsTrace cfg
  ∧ setup_ok cfg ∧ sources_ok cfg ∧ authServices_ok cfg ∧ tools_ok cfg
  ∧ toolsets_ok cfg.
Proof.
  intros Hret. apply returned_Ok in Hret.
  pose proof (NewServer_Run cfg) as Hrun. rewrite Hret in Hrun.
  by apply Run_Ok.
Qed.

Lemma lookup_omap_ok_Some {A B : Type} (f : A → result B) (m : gmap string A)
    (n : string) (b : B) :
  omap (λ x, okOf (f x)) m !! n = Some b ↔ ∃ x, m !! n = Some x ∧ f x = Ok b.
Proof.
  rewrite lookup_omap. destruct (m !! n) as [x|]; cbn.
  - split.
    + intros H. exists x. split; [done|]. destruct (f x); cbn in H; congruence.
    + intros (y & [= <-] & ->). done.
  - split; [done | intros (y & ? & _); done].
Qed.

(** X3. In the server a successful [NewServer] returns, a name maps to
    a source, auth service or tool exactly when it is configured and
    its constructor returned that object; each tool is the one built
    against the server's own source map; and the three maps have the
    names of the configuration. *)
Theorem NewServer_registry_lookup (cfg : ServerConfig) (s : Server) :
  returned (NewServer cfg []).1 = (Some s, None) →
  (∀ n h, sources s !! n = Some h ↔
          ∃ sc, SourceConfigs cfg !! n = Some sc ∧ source_Initialize sc = Ok h)
  ∧ (∀ n a, authServices s !! n = Some a ↔
            ∃ sc, AuthServiceConfigs cfg !! n = Some sc ∧ auth_Initialize sc = Ok a)
  ∧ (∀ n t, tools s !! n = Some t ↔
            ∃ tc, ToolConfigs cfg !! n = Some tc
                  ∧ tool_Initialize tc (sources s) = Ok t)
  ∧ dom (sources s) = dom (SourceConfigs cfg)
  ∧ dom (authServices s) = dom (AuthServiceConfigs cfg)
  ∧ dom (tools s) = dom (ToolConfigs cfg).
Proof.
  intros Hret. destruct (NewServer_Ok _ _ Hret) as (-> & _ & _ & Hs & Ha & Ht & _).
  cbn. repeat split; try (by apply lookup_omap_ok_Some);
    try (by intros ?%lookup_omap_ok_Some); by apply dom_omap_ok.
Qed.

(** X4. In the server a successful [NewServer] returns, a toolset
    declared under a name other than the empty one is the one its
    configuration initialises against the server's tools, and the
    toolset names are the declared ones together with the empty name. *)
Theorem NewServer_declared_toolsets (cfg : ServerConfig) (s : Server) :
  returned (NewServer cfg []).1 = (Some s, None) →
  (∀ n ts, n ≠ EmptyString →
     (toolsets s !! n = Some ts ↔
      ∃ tc, ToolsetConfigs cfg !! n = Some tc
            ∧ toolset_Initialize env tc (Version cfg) (tools s) = Ok ts))
  ∧ dom (toolsets s) = {[ EmptyString ]} ∪ dom (ToolsetConfigs cfg).
Proof.
  intros Hret. destruct (NewServer_Ok _ _ Hret) as (-> & _ & _ & _ & _ & _ & Hts).
  cbn. split.
  - intros n ts Hn. unfold builtToolsets. rewrite lookup_omap_ok_Some.
    unfold mergedToolsetConfigs. by rewrite lookup_insert_ne.
  - unfold builtToolsets. rewrite dom_omap_ok by done.
    unfold mergedToolsetConfigs. by rewrite dom_insert_L.
Qed.

Lemma stopped_at_not_ok {A B : Type} (ev : string → Event) (prefix : string)
    (f : A → result B) (cfgm : gmap string A) (n : string) (r : result Server)
    (new : list Event) :
  stopped_at ev prefix f cfgm n r new →
  map_Forall (λ _ x, is_Ok (f x)) cfgm → False.
Proof.
  intros (x & c & Hx & Hfx & _)%stopped_at_Err Hall.
  apply (not_Ok_Err _ (Hall n x Hx)). by eexists.
Qed.

(** X5. When the steps before the first loop pass and some source
    constructor fails, [NewServer] returns [unable to initialize source
    %q: cause] for a failing source, wrapping its cause, and has called
    nothing but source constructors: no auth service, tool or toolset
    is initialised and no line is logged. *)
Theorem NewServer_source_failure (cfg : ServerConfig) :
  setup_ok cfg → ¬ sources_ok cfg →
  ∃ n sc cause,
    SourceConfigs cfg !! n = Some sc
    ∧ source_Initialize sc = Err cause
    ∧ (NewServer cfg []).1
      = Err (wrapError ("unable to initialize source " +:+ Quote env n +:+ ": "
                        +:+ Error cause) cause)
    ∧ Forall (λ e, is_SourceInit e = true) (NewServer cfg []).2.
Proof.
  intros Hsetup Hnot. pose proof (NewServer_Run cfg) as Hrun.
  destruct Hrun as [ | n ? ? ? Hst | | | | | ]; try done.
  pose proof (stopped_at_events (λ e, is_SourceInit e = true) SourceInit _ _ _ _ _ _
                (λ _, eq_refl) Hst) as Hall.
  apply stopped_at_Err in Hst as (x & c & Hx & Hfx & -> & _).
  exists n, x, c. repeat split; try done.
  unfold Errorf_w. by rewrite <- !append_assoc.
Qed.

(** X6. When every source is built and some auth service constructor
    fails, [NewServer] returns [unable to initialize auth service %q:
    cause] for a failing auth service, wrapping its cause; every
    configured source has been initialised by then, and no tool or
    toolset constructor is called. *)
Theorem NewServer_authService_failure (cfg : ServerConfig) :
  setup_ok cfg → sources_ok cfg → ¬ authServices_ok cfg →
  ∃ n sc cause,
    AuthServiceConfigs cfg !! n = Some sc
    ∧ auth_Initialize sc = Err cause
    ∧ (NewServer cfg []).1
      = Err (wrapError ("unable to initialize auth service " +:+ Quote env n +:+ ": "
                        +:+ Error cause) cause)
    ∧ (∀ k, is_Some (SourceConfigs cfg !! k) → SourceInit k ∈ (NewServer cfg []).2)
    ∧ Forall (λ e, is_ToolInit e = false ∧ is_ToolsetInit e = false)
        (NewServer cfg []).2.
Proof.
  intros Hsetup Hsrc Hnot. pose proof (NewServer_Run cfg) as Hrun.
  destruct Hrun as [ | n ? ? ? Hst | n ? ? ? ? Hst | | | | ]; try done.
  { exfalso. by eapply stopped_at_not_ok. }
  pose proof (stopped_at_events
                (λ e, is_ToolInit e = false ∧ is_ToolsetInit e = false)
                AuthServiceInit _ _ _ _ _ _ (λ _, conj eq_refl eq_refl) Hst) as Hall.
  apply stopped_at_Err in Hst as (x & c & Hx & Hfx & -> & _).
  exists n, x, c. repeat split; try done.
  - unfold Errorf_w. by rewrite <- !append_assoc.
  - intros k Hk. apply elem_of_app. left. by apply SourceInit_in_trace.
  - apply Forall_app_2; [|done]. events.
Qed.

(** X7. When sources, auth services and tools are all built and the
    constructor of a toolset the last loop visits fails, [NewServer]
    returns [unable to initialize toolset %q: cause] for a failing
    toolset, wrapping its cause; every configured tool has been
    constructed by then. *)
Theorem NewServer_toolset_failure (cfg : ServerConfig) :
  setup_ok cfg → sources_ok cfg → authServices_ok cfg → tools_ok cfg →
  ¬ toolsets_ok cfg →
  ∃ n tc cause,
    mergedToolsetConfigs cfg !! n = Some tc
    ∧ toolset_Initialize env tc (Version cfg) (builtTools cfg) = Err cause
    ∧ (NewServer cfg []).1
      = Err (wrapError ("unable to initialize toolset " +:+ Quote env n +:+ ": "
                        +:+ Error cause) cause)
    ∧ (∀ k, is_Some (ToolConfigs cfg !! k) →
            ToolInit k (builtSources cfg) ∈ (NewServer cfg []).2).
Proof.
  intros Hsetup Hsrc Hauth Htool Hnot. pose proof (NewServer_Run cfg) as Hrun.
  destruct Hrun as [ | n ? ? ? Hst | n ? ? ? ? Hst | n ? ? ? ? ? Hst
                   | n ? ? ? ? ? ? Hst | | ]; try done;
    try (exfalso; by eapply stopped_at_not_ok).
  apply stopped_at_Err in Hst as (x & c & Hx & Hfx & -> & _).
  exists n, x, c. repeat split; try done.
  - unfold Errorf_w. by rewrite <- !append_assoc.
  - intros k Hk. apply elem_of_app. left. by apply ToolInit_in_trace.
Qed.

(** X8. When every component is built, an error of [apiRouter] is
    returned as it is, without a wrapping, and [mcpRouter] decides only
    when [apiRouter] passes; in both cases every constructor has run
    and the four lines are logged, and no server is returned. *)
Theorem NewServer_router_failure (cfg : ServerConfig) (e : error) :
  setup_ok cfg → sources_ok cfg → authServices_ok cfg → tools_ok cfg →
  toolsets_ok cfg →
  apiRouter env (builtServer cfg) = Some e
  ∨ (apiRouter env (builtServer cfg) = None
     ∧ mcpRouter env (builtServer cfg) = Some e) →
  returned (NewServer cfg []).1 = (None, Some e)
  ∧ (NewServer cfg []).2 = toolsetsTrace cfg.
Proof.
  intros Hsetup Hsrc Hauth Htool Hts Hrouter.
  pose proof (NewServer_Run cfg) as Hrun.
  destruct Hrun as [ | n ? ? ? Hst | n ? ? ? ? Hst | n ? ? ? ? ? Hst
                   | n ? ? ? ? ? ? Hst | e' ? ? ? ? ? Hr | ? ? ? ? ? Hapi Hmcp ];
    try done; try (exfalso; by eapply stopped_at_not_ok).
  - split; [|done]. cbn.
    destruct Hrouter as [Ha | [Ha Hm]], Hr as [Ha' | [Ha' Hm']]; congruence.
  - exfalso. destruct Hrouter as [Ha | [Ha Hm]]; congruence.
Qed.

Lemma size_omap_ok {A B : Type} (f : A → result B) (m : gmap string A) :
  map_Forall (λ _ x, is_Ok (f x)) m →
  size (omap (λ x, okOf (f x)) m) = size m.
Proof.
  intros Hall. rewrite <- !size_dom. by rewrite dom_omap_ok.
Qed.

(** X9. After a successful [NewServer] the four log lines carry the
    numbers of configured sources, auth services and tools, and for the
    toolsets the number of declared ones plus one for the default
    toolset, unless a toolset is declared under the empty name, which
    the default replaces. *)
Theorem NewServer_logged_counts (cfg : ServerConfig) (s : Server) :
  returned (NewServer cfg []).1 = (Some s, None) →
  let tr := (NewServer cfg []).2 in
  Log ("Initialized " +:+ pretty (size (SourceConfigs cfg)) +:+ " sources.") ∈ tr
  ∧ Log ("Initialized " +:+ pretty (size (AuthServiceConfigs cfg)) +:+ " authServices.")
      ∈ tr
  ∧ Log ("Initialized " +:+ pretty (size (ToolConfigs cfg)) +:+ " tools.") ∈ tr
  ∧ Log ("Initialized "
         +:+ pretty (match ToolsetConfigs cfg !! EmptyString with
                     | Some _ => size (ToolsetConfigs cfg)
                     | None => S (size (ToolsetConfigs cfg))
                     end)
         +:+ " toolsets.") ∈ tr.
Proof.
  intros Hret tr. destruct (NewServer_Ok _ _ Hret) as (_ & Htr & _ & Hs & Ha & Ht & Hts).
  subst tr. rewrite Htr.
  assert (Hsize : size (builtToolsets cfg)
                  = match ToolsetConfigs cfg !! EmptyString with
                    | Some _ => size (ToolsetConfigs cfg)
                    | None => S (size (ToolsetConfigs cfg))
                    end).
  { unfold builtToolsets. rewrite size_omap_ok by done. unfold mergedToolsetConfigs.
    destruct (ToolsetConfigs cfg !! EmptyString) as [tc|] eqn:Hd.
    - by erewrite map_size_insert_Some.
    - by rewrite map_size_insert_None. }
  rewrite <- Hsize.
  rewrite <- (size_omap_ok _ _ Hs), <- (size_omap_ok _ _ Ha), <- (size_omap_ok _ _ Ht).
  fold (builtSources cfg) (builtAuthServices cfg) (builtTools cfg).
  unfold toolsetsTrace, toolsTrace, authServicesTrace, sourcesTrace.
  rewrite !elem_of_app, !list_elem_of_singleton. tauto.
Qed.

(** The constructor an event is a call of, and the name it is called
    for; log lines are no calls. *)
Inductive Kind : Type := KSource | KAuthService | KTool | KToolset.

Definition called (ev : Event) : option (Kind * string) :=
  match ev with
  | SourceInit n => Some (KSource, n)
  | AuthServiceInit n => Some (KAuthService, n)
  | ToolInit n _ => Some (KTool, n)
  | ToolsetInit n _ => Some (KToolset, n)
  | Log _ => None
  end.

Definition calls (k : Kind) (names : list string) : list (Kind * string) :=
  (λ n, (k, n)) <$> names.

Lemma called_events (k : Kind) (ev : string → Event) (names : list string) :
  (∀ n, called (ev n) = Some (k, n)) → omap called (ev <$> names) = calls k names.
Proof.
  intros Hev. induction names as [|n names IH]; [done|].
  change (omap called (ev n :: (ev <$> names)) = (k, n) :: calls k names).
  cbn [omap list_omap]. by rewrite Hev, IH.
Qed.

Lemma NoDup_calls (k : Kind) (names : list string) :
  NoDup names → NoDup (calls k names).
Proof. apply NoDup_fmap_2. intros a b. congruence. Qed.

Lemma elem_of_calls (k k' : Kind) (n : string) (names : list string) :
  (k', n) ∈ calls k names → k' = k.
Proof. intros (m & [= -> ->] & _)%list_elem_of_fmap. done. Qed.

Lemma called_stopped {A B : Type} (k : Kind) (ev : string → Event)
    (prefix : string) (f : A → result B) (cfgm : gmap string A)
    (n : string) (r : result Server) (new : list Event) :
  (∀ m, called (ev m) = Some (k, m)) →
  stopped_at ev prefix f cfgm n r new →
  ∃ names, omap called new = calls k names ∧ NoDup names.
Proof.
  intros Hev (pre & x & post & c & Hr & _ & _ & _ & ->).
  exists (pre.*1 ++ [n]). split.
  - rewrite <- (called_events k ev (pre.*1 ++ [n]) Hev). by rewrite fmap_app.
  - pose proof (range_NoDup cfgm) as Hnd. rewrite Hr, fmap_app in Hnd. cbn in Hnd.
    apply NoDup_app in Hnd as (H1 & H2 & H3). apply NoDup_app. split; [done|].
    split; [|apply NoDup_singleton].
    intros y Hy ->%list_elem_of_singleton. apply (H2 n Hy). by left.
Qed.

Lemma called_sourcesTrace (cfg : ServerConfig) :
  omap called (sourcesTrace cfg) = calls KSource (range _ (SourceConfigs cfg)).*1.
Proof.
  unfold sourcesTrace. rewrite omap_app, (called_events KSource) by done.
  cbn. by rewrite app_nil_r.
Qed.

Lemma called_authServicesTrace (cfg : ServerConfig) :
  omap called (authServicesTrace cfg)
  = calls KSource (range _ (SourceConfigs cfg)).*1
    ++ calls KAuthService (range _ (AuthServiceConfigs cfg)).*1.
Proof.
  unfold authServicesTrace.
  rewrite !omap_app, called_sourcesTrace, (called_events KAuthService) by done.
  cbn. by rewrite app_nil_r.
Qed.

Lemma called_toolsTrace (cfg : ServerConfig) :
  omap called (toolsTrace cfg)
  = (calls KSource (range _ (SourceConfigs cfg)).*1
     ++ calls KAuthService (range _ (AuthServiceConfigs cfg)).*1)
    ++ calls KTool (range _ (ToolConfigs cfg)).*1.
Proof.
  unfold toolsTrace.
  rewrite !omap_app, called_authServicesTrace, (called_events KTool) by done.
  cbn. by rewrite app_nil_r.
Qed.

Lemma called_toolsetsTrace (cfg : ServerConfig) :
  omap called (toolsetsTrace cfg)
  = ((calls KSource (range _ (SourceConfigs cfg)).*1
      ++ calls KAuthService (range _ (AuthServiceConfigs cfg)).*1)
     ++ calls KTool (range _ (ToolConfigs cfg)).*1)
    ++ calls KToolset (range _ (mergedToolsetConfigs cfg)).*1.
Proof.
  unfold toolsetsTrace.
  rewrite !omap_app, called_toolsTrace, (called_events KToolset) by done.
  cbn. by rewrite app_nil_r.
Qed.

Ltac distinct_calls :=
  repeat match goal with
         | |- NoDup (_ ++ _) => apply NoDup_app; split; [|split]
         | |- NoDup (calls _ _) => apply NoDup_calls; first [done | apply range_NoDup]
         | |- ∀ x, x ∈ _ → x ∉ _ =>
             let k := fresh "k" in let n := fresh "n" in
             let H1 := fresh "H1" in let H2 := fresh "H2" in
             intros [k n] H1 H2;
             repeat (apply elem_of_app in H1 as [H1 | H1]);
             apply elem_of_calls in H1; apply elem_of_calls in H2; congruence
         end.

(** X10. In every run of [NewServer], successful or not, no
    constructor is called twice for the same name: the source, auth
    service, tool and toolset constructor calls of the trace are
    pairwise distinct. *)
Theorem NewServer_no_repeated_call (cfg : ServerConfig) :
  NoDup (omap called (NewServer cfg []).2).
Proof.
  pose proof (NewServer_Run cfg) as Hrun.
  destruct Hrun as [ | n ? ? ? Hst | n ? ? ? ? Hst | n ? ? ? ? ? Hst
                   | n ? ? ? ? ? ? Hst | | ].
  - constructor.
  - destruct (called_stopped KSource SourceInit _ _ _ _ _ _ (λ _, eq_refl) Hst)
      as (names & -> & Hnd). distinct_calls.
  - destruct (called_stopped KAuthService AuthServiceInit _ _ _ _ _ _ (λ _, eq_refl) Hst)
      as (names & Hc & Hnd).
    rewrite omap_app, called_sourcesTrace, Hc. distinct_calls.
  - destruct (called_stopped KTool (toolEvent cfg) _ _ _ _ _ _ (λ _, eq_refl) Hst)
      as (names & Hc & Hnd).
    rewrite omap_app, called_authServicesTrace, Hc. distinct_calls.
  - destruct (called_stopped KToolset (toolsetEvent cfg) _ _ _ _ _ _ (λ _, eq_refl) Hst)
      as (names & Hc & Hnd).
    rewrite omap_app, called_toolsTrace, Hc. distinct_calls.
  - rewrite called_toolsetsTrace. distinct_calls.
  - rewrite called_toolsetsTrace. distinct_calls.
Qed.

(** X16. [NewServer] returns a server exactly when the steps before the
    first loop pass, every source, auth service and tool constructor
    succeeds, every toolset the last loop visits initialises, and both
    routers are built; the server is then the one holding all of them. *)
Theorem NewServer_succeeds_iff (cfg : ServerConfig) (s : Server) :
  returned (NewServer cfg []).1 = (Some s, None) ↔
  s = builtServer cfg
  ∧ setup_ok cfg ∧ sources_ok cfg ∧ authServices_ok cfg ∧ tools_ok cfg
  ∧ toolsets_ok cfg
  ∧ apiRouter env (builtServer cfg) = None
  ∧ mcpRouter env (builtServer cfg) = None.
Proof.
  rewrite returned_Ok. pose proof (NewServer_Run cfg) as Hrun. split.
  - intros Hret. rewrite Hret in Hrun.
    inversion Hrun as [ | ? ? ? ? Hst | ? ? ? ? ? Hst | ? ? ? ? ? ? Hst
                      | ? ? ? ? ? ? ? Hst | | ];
      try (destruct Hst as (? & ? & ? & ? & _ & _ & _ & ? & _); discriminate).
    done.
  - intros (-> & Hsetup & Hsrc & Hauth & Htool & Hts & Hapi & Hmcp).
    destruct Hrun as [ | n ? ? ? Hst | n ? ? ? ? Hst | n ? ? ? ? ? Hst
                     | n ? ? ? ? ? ? Hst | e ? ? ? ? ? Hr | ];
      try done; try (exfalso; by eapply stopped_at_not_ok).
    exfalso. destruct Hr as [Ha | [Ha Hm]]; congruence.
Qed.

(** ** Further properties of [Listen] *)

Lemma set_listener_same (s : Server) : set_listener (listener s) s = s.
Proof. by destruct s. Qed.

(** X11. The server a successful [NewServer] returns is not listening:
    its first [Listen] asks for the address [JoinHostPort(cfg.Address,
    Itoa(cfg.Port))] and, when that is granted, succeeds, stores the
    listener and logs the address. *)
Theorem NewServer_then_Listen (cfg : ServerConfig) (s : Server)
    (lcListen : string → result Listener) (l : Listener) (tr : list Event) :
  returned (NewServer cfg []).1 = (Some s, None) →
  lcListen (JoinHostPort (Address cfg) (pretty (Port cfg))) = Ok l →
  Listen lcListen s tr
  = ((set_listener (Some l) s, None),
     tr ++ [Log ("server listening on "
                 +:+ JoinHostPort (Address cfg) (pretty (Port cfg)))]).
Proof.
  intros Hret Hl. destruct (NewServer_Ok _ _ Hret) as (-> & _).
  unfold Listen. cbn [listener srv_Addr builtServer]. by rewrite Hl.
Qed.

(** X12. When the listener cannot be opened, [Listen] returns [failed
    to open listener for %q: cause] wrapping the cause, logs nothing and
    leaves the server as it was, so that a later [Listen] that is
    granted the address still succeeds. *)
Theorem Listen_failure_then_retry (s : Server) (tr : list Event)
    (first second : string → result Listener) (cause : error) (l : Listener) :
  listener s = None →
  first (srv_Addr s) = Err cause →
  second (srv_Addr s) = Ok l →
  Listen first s tr
  = ((s, Some (wrapError ("failed to open listener for " +:+ Quote env (srv_Addr s)
                          +:+ ": " +:+ Error cause) cause)), tr)
  ∧ (ListenAll [first; second] s tr).1.1
    = [Some (wrapError ("failed to open listener for " +:+ Quote env (srv_Addr s)
                        +:+ ": " +:+ Error cause) cause); None]
  ∧ listener (ListenAll [first; second] s tr).1.2 = Some l.
Proof.
  intros Hnone Hfirst Hsecond.
  assert (Hrun : Listen first s tr
                 = ((s, Some (wrapError
                                ("failed to open listener for " +:+ Quote env (srv_Addr s)
                                 +:+ ": " +:+ Error cause) cause)), tr)).
  { unfold Listen. rewrite Hnone, Hfirst. rewrite <- Hnone at 1.
    rewrite set_listener_same. unfold Errorf_w. by rewrite <- !append_assoc. }
  split; [exact Hrun|].
  assert (Hrun2 : Listen second s tr
                  = ((set_listener (Some l) s, None),
                     tr ++ [Log ("server listening on " +:+ srv_Addr s)])).
  { unfold Listen. by rewrite Hnone, Hsecond. }
  cbn [ListenAll]. rewrite Hrun, Hrun2. done.
Qed.

(** X13. Once [Listen] has succeeded with listener [l], every further
    [Listen] on that server returns [server is already listening:]
    followed by the address of [l], without asking for a listener
    again, and changes neither the server nor the log. *)
Theorem Listen_after_success (s : Server) (tr tr' : list Event)
    (lcListen again : string → result Listener) (l : Listener) :
  listener s = None →
  lcListen (srv_Addr s) = Ok l →
  let s' := (Listen lcListen s tr).1.1 in
  (Listen lcListen s tr).1.2 = None
  ∧ listener s' = Some l
  ∧ Listen again s' tr'
    = ((s', Some (errorString
                    ("server is already listening: " +:+ listener_Addr env l))), tr').
Proof.
  intros Hnone Hl. unfold Listen at 1 2 3. rewrite Hnone, Hl. cbn.
  repeat split.
Qed.

Lemma Listen_keeps (lcListen : string → result Listener) (s : Server)
    (tr : list Event) :
  let s' := (Listen lcListen s tr).1.1 in
  version s' = version s ∧ srv_Addr s' = srv_Addr s
  ∧ sources s' = sources s ∧ authServices s' = authServices s
  ∧ tools s' = tools s ∧ toolsets s' = toolsets s.
Proof.
  unfold Listen. destruct (listener s); [done|].
  by destruct (lcListen (srv_Addr s)).
Qed.

(** X14. No sequence of [Listen] calls changes the registry of a
    server: its version, address, sources, auth services, tools and
    toolsets stay as [NewServer] built them. *)
Theorem ListenAll_keeps_registry (calls : list (string → result Listener))
    (s : Server) (tr : list Event) :
  let s' := (ListenAll calls s tr).1.2 in
  version s' = version s ∧ srv_Addr s' = srv_Addr s
  ∧ sources s' = sources s ∧ authServices s' = authServices s
  ∧ tools s' = tools s ∧ toolsets s' = toolsets s.
Proof.
  revert s tr. induction calls as [|c calls IH]; intros s tr; [done|].
  cbn [ListenAll]. pose proof (Listen_keeps c s tr) as Hk.
  destruct (Listen c s tr) as [[s1 err] tr1]. specialize (IH s1 tr1).
  destruct (ListenAll calls s1 tr1) as [[errs s2] tr2]. cbn in *.
  destruct Hk as (? & ? & ? & ? & ? & ?), IH as (? & ? & ? & ? & ? & ?).
  repeat split; congruence.
Qed.

(** X15. Among [Listen] calls on a server that is not listening, the
    calls made while the address is refused all fail, the first call
    that is granted the address succeeds, and it is the only one: the
    server ends with that call's listener. When the address is refused
    every time, no call succeeds and the server is left as it was. *)
Theorem ListenAll_first_granted (s : Server) (tr : list Event)
    (refused : list (string → result Listener)) :
  listener s = None →
  Forall (λ c, is_Err (c (srv_Addr s))) refused →
  (successes (ListenAll refused s tr).1.1 = 0
   ∧ (ListenAll refused s tr).1.2 = s
   ∧ (ListenAll refused s tr).2 = tr)
  ∧ ∀ (granted : string → result Listener) (l : Listener)
      (later : list (string → result Listener)),
      granted (srv_Addr s) = Ok l →
      successes (ListenAll (refused ++ granted :: later) s tr).1.1 = 1
      ∧ (ListenAll (refused ++ granted :: later) s tr).1.1 !! length refused
        = Some None
      ∧ listener (ListenAll (refused ++ granted :: later) s tr).1.2 = Some l.
Proof.
  intros Hnone Hrefused. induction Hrefused as [|c refused [e He] Hrest IH].
  - split; [done|]. intros granted l later Hl. cbn [app ListenAll].
    unfold Listen. rewrite Hnone, Hl.
    destruct (ListenAll_listening later (set_listener (Some l) s)
                (tr ++ [Log ("server listening on " +:+ srv_Addr s)]) l eq_refl)
      as [H0 Hs].
    destruct (ListenAll later _ _) as [[errs s''] tr'']. cbn in *.
    subst s''. rewrite H0. done.
  - assert (Hc : Listen c s tr
                 = ((s, Some (Errorf_w ("failed to open listener for "
                                        +:+ Quote env (srv_Addr s) +:+ ": ") e)), tr)).
    { unfold Listen. rewrite Hnone, He. rewrite <- Hnone at 1.
      by rewrite set_listener_same. }
    destruct IH as [(H0 & Hs & Htr) Hgr]. split.
    + cbn [ListenAll]. rewrite Hc.
      destruct (ListenAll refused s tr) as [[errs s''] tr'']. cbn in *. done.
    + intros granted l later Hl. specialize (Hgr granted l later Hl).
      cbn [app ListenAll]. rewrite Hc.
      destruct (ListenAll (refused ++ granted :: later) s tr) as [[errs s''] tr''].
      cbn in *. done.
Qed.

End Registry.

(** ** A concrete registry

    Sources, auth services, tools and listeners are their names; a
    toolset is its list of tool names, and its constructor fails on a
    name that is not a tool, as package [tools] does. Maps are visited
    in [map_to_list] order. *)

Definition demoToolsetInit (tc : ToolsetConfig) (ver : string)
    (toolsMap : gmap string string) : result (list string) :=
  if forallb (λ n, bool_decide (is_Some (toolsMap !! n))) (ToolNames tc)
  then Ok (ToolNames tc)
  else Err (errorString "tool does not exist").

Definition demoEnv : @Env string string string (list string) string :=
  {| CreateTelemetryInstrumentation := λ _, None;
     SeverityToLevel := λ _, None;
     toolset_Initialize := demoToolsetInit;
     apiRouter := λ _, None;
     mcpRouter := λ _, None;
     Quote := quoted;
     listener_Addr := λ l, l |}.

Definition demoRange (A : Type) (m : gmap string A) : list (string * A) :=
  map_to_list m.

Lemma demoRange_perm (A : Type) (m : gmap string A) : demoRange A m ≡ₚ map_to_list m.
Proof. reflexivity. Qed.

Definition demoSource (name : string) : @SourceConfig string :=
  {| SourceConfigKind := "postgres"; source_Initialize := Ok name |}.

Definition brokenSource : @SourceConfig string :=
  {| SourceConfigKind := "postgres";
     source_Initialize := Err (errorString "connection refused") |}.

(** A tool bound to source [source]: its constructor resolves the name
    in the source map it is given. *)
Definition demoTool (name source : string) : @ToolConfig string string :=
  {| ToolConfigKind := "postgres-sql";
     tool_Initialize := λ srcs,
       match srcs !! source with
       | Some _ => Ok name
       | None => Err (errorString ("no source named " +:+ quoted source +:+ " configured"))
       end |}.

(** Two tools on one source, and a declared toolset under the empty
    name that lists a tool that does not exist. *)
Definition demoConfig : @ServerConfig string string string :=
  {| Version := "0.4.0";
     Address := "127.0.0.1";
     Port := 5000;
     SourceConfigs := {[ "my-pg-instance" := demoSource "my-pg-instance" ]};
     AuthServiceConfigs := ∅;
     ToolConfigs := {[ "my-simple-tool" := demoTool "my-simple-tool" "my-pg-instance";
                       "my-param-tool" := demoTool "my-param-tool" "my-pg-instance" ]};
     ToolsetConfigs := {[ EmptyString := {| Name := EmptyString;
                                            ToolNames := ["no-such-tool"] |} ]};
     LoggingFormat := "standard";
     LogLevel := "info" |}.

(** The same with a source that cannot be opened. *)
Definition brokenSourceConfig : @ServerConfig string string string :=
  {| Version := "0.4.0";
     Address := "127.0.0.1";
     Port := 5000;
     SourceConfigs := {[ "my-pg-instance" := brokenSource ]};
     AuthServiceConfigs := ∅;
     ToolConfigs := {[ "my-simple-tool" := demoTool "my-simple-tool" "my-pg-instance" ]};
     ToolsetConfigs := ∅;
     LoggingFormat := "standard";
     LogLevel := "info" |}.

(** A tool that names a source that is not configured. *)
Definition danglingToolConfig : @ServerConfig string string string :=
  {| Version := "0.4.0";
     Address := "127.0.0.1";
     Port := 5000;
     SourceConfigs := {[ "my-pg-instance" := demoSource "my-pg-instance" ]};
     AuthServiceConfigs := ∅;
     ToolConfigs := {[ "my-tool" := demoTool "my-tool" "other-instance" ]};
     ToolsetConfigs := ∅;
     LoggingFormat := "json";
     LogLevel := "info" |}.

Definition demoServer : @Server string string string (list string) string :=
  builtServer demoEnv demoRange demoConfig.

Example demoServer_toolsets :
  toolsets demoServer !! EmptyString = Some ["my-param-tool"; "my-simple-tool"]
  ∨ toolsets demoServer !! EmptyString = Some ["my-simple-tool"; "my-param-tool"].
Proof. vm_compute. auto. Qed.

Lemma demoConfig_builds :
  returned (NewServer demoEnv demoRange demoConfig []).1 = (Some demoServer, None).
Proof. vm_compute. reflexivity. Defined.

(** The declared toolset under the empty name is replaced: the build
    succeeds although that toolset lists a tool that does not exist. *)
Lemma default_toolset_has_all_tools_witness :
  returned (NewServer demoEnv demoRange demoConfig []).1 = (Some demoServer, None)
  ∧ ∃ names ts,
      NoDup names
      ∧ (∀ n, n ∈ names ↔ is_Some (ToolConfigs demoConfig !! n))
      ∧ dom (tools demoServer) = dom (ToolConfigs demoConfig)
      ∧ toolset_Initialize demoEnv {| Name := EmptyString; ToolNames := names |}
          (Version demoConfig) (tools demoServer) = Ok ts
      ∧ toolsets demoServer !! EmptyString = Some ts.
Proof.
  split; [exact demoConfig_builds|].
  exact (default_toolset_has_all_tools demoEnv demoRange demoRange_perm
           demoConfig demoServer demoConfig_builds).
Defined.

Lemma brokenSource_fails :
  ∃ n sc, SourceConfigs brokenSourceConfig !! n = Some sc
          ∧ is_Err (source_Initialize sc).
Proof.
  exists "my-pg-instance", brokenSource. split; [vm_compute; reflexivity|].
  eexists. reflexivity.
Defined.

Lemma build_all_or_nothing_witness :
  ∃ e, returned (NewServer demoEnv demoRange brokenSourceConfig []).1 = (None, Some e).
Proof.
  apply (build_all_or_nothing demoEnv demoRange demoRange_perm brokenSourceConfig).
  left. exact brokenSource_fails.
Defined.

Example brokenSource_error :
  returned (NewServer demoEnv demoRange brokenSourceConfig []).1
  = (None,
     Some (wrapError
             ("unable to initialize source " +:+ quoted "my-pg-instance"
              +:+ ": connection refused")
             (errorString "connection refused"))).
Proof. vm_compute. reflexivity. Qed.

Lemma danglingTool_setup_ok : setup_ok demoEnv danglingToolConfig.
Proof. repeat split. left. reflexivity. Defined.

Lemma danglingTool_sources_ok : sources_ok danglingToolConfig.
Proof.
  apply map_Forall_to_list. vm_compute.
  repeat constructor. eexists. reflexivity.
Defined.

Lemma danglingTool_authServices_ok : authServices_ok danglingToolConfig.
Proof. apply map_Forall_to_list. vm_compute. constructor. Defined.

Lemma danglingTool_not_tools_ok : ¬ tools_ok danglingToolConfig.
Proof.
  intros Hok.
  assert (ToolConfigs danglingToolConfig !! "my-tool"
          = Some (demoTool "my-tool" "other-instance")) as Htc
    by (vm_compute; reflexivity).
  destruct (Hok _ _ Htc) as [t Ht]. vm_compute in Ht. discriminate.
Defined.

(** A tool whose source name does not resolve. *)
Lemma build_order_witness :
  ∃ n tc cause,
    ToolConfigs danglingToolConfig !! n = Some tc
    ∧ tool_Initialize tc (builtSources danglingToolConfig) = Err cause
    ∧ ToolInit n (builtSources danglingToolConfig)
        ∈ (NewServer demoEnv demoRange danglingToolConfig []).2
    ∧ returned (NewServer demoEnv demoRange danglingToolConfig []).1
      = (None, Some (wrapError
                       ("unable to initialize tool " +:+ Quote demoEnv n +:+ ": "
                        +:+ Error cause) cause)).
Proof.
  exact (proj2 (proj2 (proj2 (proj2 (proj2
           (build_order demoEnv demoRange demoRange_perm danglingToolConfig)))))
         danglingTool_setup_ok danglingTool_sources_ok
         danglingTool_authServices_ok danglingTool_not_tools_ok).
Defined.

Example danglingTool_error :
  returned (NewServer demoEnv demoRange danglingToolConfig []).1
  = (None,
     Some (wrapError
             ("unable to initialize tool " +:+ quoted "my-tool"
              +:+ ": no source named " +:+ quoted "other-instance" +:+ " configured")
             (errorString
                ("no source named " +:+ quoted "other-instance" +:+ " configured")))).
Proof. vm_compute. reflexivity. Qed.

Definition listeningServer : @Server string string string (list string) string :=
  set_listener (Some "127.0.0.1:5000") demoServer.

Lemma Listen_once_witness :
  ∃ e, Listen demoEnv (λ addr, Ok addr) listeningServer [] = ((listeningServer, Some e), [])
       ∧ String.prefix "server is already listening" (Error e) = true.
Proof.
  exact (proj1 (Listen_once demoEnv) (λ addr, Ok addr) listeningServer []
           "127.0.0.1:5000" eq_refl).
Defined.

Example Listen_twice :
  (ListenAll demoEnv [λ addr, Ok addr; λ addr, Ok addr] demoServer []).1.1
  = [None; Some (errorString "server is already listening: 127.0.0.1:5000")].
Proof. vm_compute. reflexivity. Qed.

(** *** Further configurations *)

Ltac all_ok :=
  apply map_Forall_to_list; vm_compute;
  repeat (constructor; try (eexists; reflexivity)).

Definition noTelemetryEnv : @Env string string string (list string) string :=
  {| CreateTelemetryInstrumentation := λ _, Some (errorString "no exporter");
     SeverityToLevel := λ _, None;
     toolset_Initialize := demoToolsetInit;
     apiRouter := λ _, None;
     mcpRouter := λ _, None;
     Quote := quoted;
     listener_Addr := λ l, l |}.

Definition noMcpRouterEnv : @Env string string string (list string) string :=
  {| CreateTelemetryInstrumentation := λ _, None;
     SeverityToLevel := λ _, None;
     toolset_Initialize := demoToolsetInit;
     apiRouter := λ _, None;
     mcpRouter := λ _, Some (errorString "no session manager");
     Quote := quoted;
     listener_Addr := λ l, l |}.


Definition brokenAuthService : @AuthServiceConfig string :=
  {| AuthServiceConfigKind := "google";
     auth_Initialize := Err (errorString "missing client id") |}.

Definition brokenAuthServiceConfig : @ServerConfig string string string :=
  {| Version := "0.4.0";
     Address := "127.0.0.1";
     Port := 5000;
     SourceConfigs := {[ "my-pg-instance" := demoSource "my-pg-instance" ]};
     AuthServiceConfigs := {[ "my-google-auth" := brokenAuthService ]};
     ToolConfigs := {[ "my-simple-tool" := demoTool "my-simple-tool" "my-pg-instance" ]};
     ToolsetConfigs := ∅;
     LoggingFormat := "standard";
     LogLevel := "info" |}.

(** A declared toolset, under a name of its own, that lists a tool that
    does not exist. *)
Definition brokenToolsetConfig : @ServerConfig string string string :=
  {| Version := "0.4.0";
     Address := "127.0.0.1";
     Port := 5000;
     SourceConfigs := {[ "my-pg-instance" := demoSource "my-pg-instance" ]};
     AuthServiceConfigs := ∅;
     ToolConfigs := {[ "my-simple-tool" := demoTool "my-simple-tool" "my-pg-instance" ]};
     ToolsetConfigs := {[ "extra" := {| Name := "extra"; ToolNames := ["no-such-tool"] |} ]};
     LoggingFormat := "standard";
     LogLevel := "info" |}.

Lemma demoConfig_setup_ok (e : @Env string string string (list string) string) :
  CreateTelemetryInstrumentation e (Version demoConfig) = None →
  SeverityToLevel e (LogLevel demoConfig) = None →
  setup_ok e demoConfig.
Proof. intros H1 H2. repeat split; try done. right. reflexivity. Defined.

Lemma demoConfig_sources_ok : sources_ok demoConfig.
Proof. all_ok. Defined.

Lemma demoConfig_authServices_ok : authServices_ok demoConfig.
Proof. all_ok. Defined.

Lemma demoConfig_tools_ok : tools_ok demoConfig.
Proof. all_ok. Defined.

Lemma demoConfig_toolsets_ok (e : @Env string string string (list string) string) :
  toolset_Initialize e = demoToolsetInit → toolsets_ok e demoRange demoConfig.
Proof. intros He. unfold toolsets_ok. rewrite He. all_ok. Defined.

Lemma NewServer_setup_errors_witness :
  NewServer noTelemetryEnv demoRange demoConfig []
  = (Err (wrapError ("unable to create telemetry instrumentation: "
                     +:+ Error (errorString "no exporter"))
            (errorString "no exporter")), []).
Proof.
  exact (proj1 (NewServer_setup_errors noTelemetryEnv demoRange demoConfig)
           (errorString "no exporter") eq_refl).
Defined.


Lemma NewServer_registry_lookup_witness :
  tools demoServer !! "my-param-tool" = Some "my-param-tool" ↔
  ∃ tc, ToolConfigs demoConfig !! "my-param-tool" = Some tc
        ∧ tool_Initialize tc (sources demoServer) = Ok "my-param-tool".
Proof.
  exact (proj1 (proj2 (proj2
           (NewServer_registry_lookup demoEnv demoRange demoRange_perm
              demoConfig demoServer demoConfig_builds)))
           "my-param-tool" "my-param-tool").
Defined.

Lemma NewServer_declared_toolsets_witness :
  dom (toolsets demoServer) = {[ EmptyString ]} ∪ dom (ToolsetConfigs demoConfig).
Proof.
  exact (proj2 (NewServer_declared_toolsets demoEnv demoRange demoRange_perm
                  demoConfig demoServer demoConfig_builds)).
Defined.

Lemma brokenSourceConfig_not_sources_ok : ¬ sources_ok brokenSourceConfig.
Proof.
  intros Hok.
  assert (SourceConfigs brokenSourceConfig !! "my-pg-instance" = Some brokenSource)
    as Hsc by (vm_compute; reflexivity).
  destruct (Hok _ _ Hsc) as [h Hh]. discriminate.
Defined.

Lemma NewServer_source_failure_witness :
  ∃ n sc cause,
    SourceConfigs brokenSourceConfig !! n = Some sc
    ∧ source_Initialize sc = Err cause
    ∧ (NewServer demoEnv demoRange brokenSourceConfig []).1
      = Err (wrapError ("unable to initialize source " +:+ Quote demoEnv n +:+ ": "
                        +:+ Error cause) cause)
    ∧ Forall (λ e, is_SourceInit e = true)
        (NewServer demoEnv demoRange brokenSourceConfig []).2.
Proof.
  apply (NewServer_source_failure demoEnv demoRange demoRange_perm brokenSourceConfig).
  - repeat split. right. reflexivity.
  - exact brokenSourceConfig_not_sources_ok.
Defined.

Lemma brokenAuthServiceConfig_not_ok : ¬ authServices_ok brokenAuthServiceConfig.
Proof.
  intros Hok.
  assert (AuthServiceConfigs brokenAuthServiceConfig !! "my-google-auth"
          = Some brokenAuthService) as Hsc by (vm_compute; reflexivity).
  destruct (Hok _ _ Hsc) as [h Hh]. discriminate.
Defined.

Lemma NewServer_authService_failure_witness :
  ∃ n sc cause,
    AuthServiceConfigs brokenAuthServiceConfig !! n = Some sc
    ∧ auth_Initialize sc = Err cause
    ∧ (NewServer demoEnv demoRange brokenAuthServiceConfig []).1
      = Err (wrapError ("unable to initialize auth service " +:+ Quote demoEnv n +:+ ": "
                        +:+ Error cause) cause)
    ∧ (∀ k, is_Some (SourceConfigs brokenAuthServiceConfig !! k) →
            SourceInit k ∈ (NewServer demoEnv demoRange brokenAuthServiceConfig []).2)
    ∧ Forall (λ e, is_ToolInit e = false ∧ is_ToolsetInit e = false)
        (NewServer demoEnv demoRange brokenAuthServiceConfig []).2.
Proof.
  apply (NewServer_authService_failure demoEnv demoRange demoRange_perm
           brokenAuthServiceConfig).
  - repeat split. right. reflexivity.
  - all_ok.
  - exact brokenAuthServiceConfig_not_ok.
Defined.

Lemma brokenToolsetConfig_not_ok : ¬ toolsets_ok demoEnv demoRange brokenToolsetConfig.
Proof.
  intros Hok.
  assert (mergedToolsetConfigs demoRange brokenToolsetConfig !! "extra"
          = Some {| Name := "extra"; ToolNames := ["no-such-tool"] |}) as Htc
    by (vm_compute; reflexivity).
  destruct (Hok _ _ Htc) as [ts Hts]. vm_compute in Hts. discriminate.
Defined.

Lemma NewServer_toolset_failure_witness :
  ∃ n tc cause,
    mergedToolsetConfigs demoRange brokenToolsetConfig !! n = Some tc
    ∧ toolset_Initialize demoEnv tc (Version brokenToolsetConfig)
        (builtTools brokenToolsetConfig) = Err cause
    ∧ (NewServer demoEnv demoRange brokenToolsetConfig []).1
      = Err (wrapError ("unable to initialize toolset " +:+ Quote demoEnv n +:+ ": "
                        +:+ Error cause) cause)
    ∧ (∀ k, is_Some (ToolConfigs brokenToolsetConfig !! k) →
            ToolInit k (builtSources brokenToolsetConfig)
              ∈ (NewServer demoEnv demoRange brokenToolsetConfig []).2).
Proof.
  apply (NewServer_toolset_failure demoEnv demoRange demoRange_perm brokenToolsetConfig).
  - repeat split. right. reflexivity.
  - all_ok.
  - all_ok.
  - all_ok.
  - exact brokenToolsetConfig_not_ok.
Defined.

Lemma NewServer_router_failure_witness :
  returned (NewServer noMcpRouterEnv demoRange demoConfig []).1
  = (None, Some (errorString "no session manager"))
  ∧ (NewServer noMcpRouterEnv demoRange demoConfig []).2
    = toolsetsTrace noMcpRouterEnv demoRange demoConfig.
Proof.
  apply (NewServer_router_failure noMcpRouterEnv demoRange demoRange_perm demoConfig).
  - by apply demoConfig_setup_ok.
  - exact demoConfig_sources_ok.
  - exact demoConfig_authServices_ok.
  - exact demoConfig_tools_ok.
  - by apply demoConfig_toolsets_ok.
  - right. split; reflexivity.
Defined.

Lemma NewServer_logged_counts_witness :
  Log ("Initialized " +:+ pretty (size (ToolConfigs demoConfig)) +:+ " tools.")
    ∈ (NewServer demoEnv demoRange demoConfig []).2.
Proof.
  exact (proj1 (proj2 (proj2
           (NewServer_logged_counts demoEnv demoRange demoRange_perm
              demoConfig demoServer demoConfig_builds)))).
Defined.

Example demoConfig_log :
  filter (λ e, called e = None) (NewServer demoEnv demoRange demoConfig []).2
  = [Log "Initialized 1 sources."; Log "Initialized 0 authServices.";
     Log "Initialized 2 tools."; Log "Initialized 1 toolsets."].
Proof. vm_compute. reflexivity. Qed.

Lemma NewServer_no_repeated_call_witness :
  NoDup (omap called (NewServer demoEnv demoRange demoConfig []).2).
Proof.
  exact (NewServer_no_repeated_call demoEnv demoRange demoRange_perm demoConfig).
Defined.

Lemma NewServer_succeeds_iff_witness :
  returned (NewServer demoEnv demoRange demoConfig []).1 = (Some demoServer, None).
Proof.
  apply (NewServer_succeeds_iff demoEnv demoRange demoRange_perm demoConfig demoServer).
  split; [reflexivity|].
  split; [by apply demoConfig_setup_ok|].
  split; [exact demoConfig_sources_ok|].
  split; [exact demoConfig_authServices_ok|].
  split; [exact demoConfig_tools_ok|].
  split; [by apply demoConfig_toolsets_ok|].
  split; reflexivity.
Defined.

Lemma NewServer_then_Listen_witness :
  Listen demoEnv (λ addr, Ok addr) demoServer []
  = ((set_listener (Some "127.0.0.1:5000") demoServer, None),
     [Log ("server listening on "
           +:+ JoinHostPort (Address demoConfig) (pretty (Port demoConfig)))]).
Proof.
  exact (NewServer_then_Listen demoEnv demoRange demoRange_perm demoConfig demoServer
           (λ addr, Ok addr) "127.0.0.1:5000" [] demoConfig_builds eq_refl).
Defined.

Definition addressInUse (addr : string) : result string :=
  Err (errorString "address already in use").

Lemma Listen_failure_then_retry_witness :
  (ListenAll demoEnv [addressInUse; λ addr, Ok addr] demoServer []).1.1
  = [Some (wrapError ("failed to open listener for "
                      +:+ Quote demoEnv (srv_Addr demoServer)
                      +:+ ": " +:+ Error (errorString "address already in use"))
             (errorString "address already in use")); None].
Proof.
  exact (proj1 (proj2
           (Listen_failure_then_retry demoEnv demoServer [] addressInUse
              (λ addr, Ok addr) (errorString "address already in use")
              "127.0.0.1:5000" eq_refl eq_refl eq_refl))).
Defined.

Lemma Listen_after_success_witness :
  Listen demoEnv addressInUse
    (Listen demoEnv (λ addr, Ok addr) demoServer []).1.1 []
  = (((Listen demoEnv (λ addr, Ok addr) demoServer []).1.1,
      Some (errorString ("server is already listening: "
                         +:+ listener_Addr demoEnv "127.0.0.1:5000"))), []).
Proof.
  exact (proj2 (proj2
           (Listen_after_success demoEnv demoServer [] [] (λ addr, Ok addr)
              addressInUse "127.0.0.1:5000" eq_refl eq_refl))).
Defined.

Lemma ListenAll_first_granted_witness :
  successes (ListenAll demoEnv ([addressInUse] ++ (λ addr, Ok addr) :: [addressInUse])
               demoServer []).1.1 = 1
  ∧ (ListenAll demoEnv ([addressInUse] ++ (λ addr, Ok addr) :: [addressInUse])
       demoServer []).1.1 !! length [addressInUse] = Some None
  ∧ listener (ListenAll demoEnv ([addressInUse] ++ (λ addr, Ok addr) :: [addressInUse])
                demoServer []).1.2 = Some "127.0.0.1:5000".
Proof.
  apply (proj2 (ListenAll_first_granted demoEnv demoServer [] [addressInUse] eq_refl
                  ltac:(repeat constructor; eexists; reflexivity))
           (λ addr, Ok addr) "127.0.0.1:5000" [addressInUse]).
  reflexivity.
Defined.

End server.

(** ** Tool calls: auth gate, invocation pipeline, MCP [tools/call]

    The handlers behind [apiRouter] and [mcpRouter] and the methods of
    [tools.Tool] are exercised by the integration tests
    ([RunToolInvokeTest], [RunMCPToolCallMethod]) but their code is not
    among the sources at hand; this part follows the specification. *)
Module toolcall.
Section Handlers.

(** JSON values of arguments: the tool capability interprets them. *)
Context {Value : Type}.

(** Identity claims of a verified credential. *)
Abbreviation Claims := (gmap string string).

(** Modelled from the spec: a declared argument slot (section 3,
    Parameter) as far as the dispatcher needs it: its name, whether it
    is required, and the tool capability's type check and coercion of a
    supplied value. The parameter type system is missing from the
    sources. *)
Record ToolParameter : Type := {
  param_Name : string;
  param_Required : bool;
  param_Parse : Value → result Value;
}.

(** Modelled from the spec: a Tool (section 3): its ordered Parameters
    and TemplateParameters, its AuthRequired names, and the execution it
    delegates to its bound Source. The [tools.Tool] interface and its
    implementations are missing from the sources. *)
Record Tool : Type := {
  tool_Parameters : list ToolParameter;
  tool_TemplateParameters : list ToolParameter;
  AuthRequired : list string;
  Execute : list (string * Value) → list (string * Value) → result string;
}.

(** Modelled from the spec: the AuthService capability of section 6,
    [verifier.Verify(token)], by service name. Package [auth] is missing
    from the sources. *)
Variable Verify : string → string → result Claims.

(** Modelled from the spec: the credential of an auth service among the
    request headers, under the header named [<auth-service-name>_token]
    (section 4.2). The header extraction of both front ends is missing
    from the sources. *)
Definition credential (headers : gmap string string) (svc : string) : option string :=
  headers !! (svc +:+ "_token").

(** Modelled from the spec: the loop of the Auth Gate (section 4.2):
    for each listed service whose credential is present, verify it; the
    first success wins, a failure moves on to the next service. The
    authorization code is missing from the sources. *)
Fixpoint firstVerified (headers : gmap string string) (required : list string)
    : option Claims :=
  match required with
  | [] => None
  | svc :: rest =>
      match credential headers svc with
      | Some token =>
          match Verify svc token with
          | Ok claims => Some claims
          | Err _ => firstVerified headers rest
          end
      | None => firstVerified headers rest
      end
  end.

(** Modelled from the spec: [Authorize(tool, presentedCredentials)] of
    section 4.2: no requirement authorizes with empty claims; otherwise
    the first verified listed service, or a failure saying that auth is
    required. The authorization code is missing from the sources. *)
Definition Authorize (tool : Tool) (headers : gmap string string) : result Claims :=
  match AuthRequired tool with
  | [] => Ok ∅
  | required =>
      match firstVerified headers required with
      | Some claims => Ok claims
      | None => Err (errorString "auth is required for the tool")
      end
  end.

(** Modelled from the spec: validation of raw arguments against the
    declared parameters, in declaration order (section 4.3, step 1):
    a required parameter must be present, a present value must pass the
    parameter's check. The message for an absent required parameter is
    the one of section 4.4. [ParseParams] is missing from the sources. *)
Fixpoint ParseParams (ps : list ToolParameter) (raw : gmap string Value)
    : result (list (string * Value)) :=
  match ps with
  | [] => Ok []
  | p :: rest =>
      match raw !! param_Name p with
      | None =>
          if param_Required p
          then Err (errorString
                      ("parameter " +:+ quoted (param_Name p) +:+ " is required"))
          else ParseParams rest raw
      | Some v =>
          match param_Parse p v with
          | Err e => Err e
          | Ok v' =>
              match ParseParams rest raw with
              | Err e => Err e
              | Ok vs => Ok ((param_Name p, v') :: vs)
              end
          end
      end
  end.

(** Modelled from the spec: the transport-agnostic outcome of the
    Invocation Pipeline (section 4.3, step 4): a success value or a
    classified error. *)
Inductive Outcome : Type :=
  | Invoked (payload : string)
  | ValidationError (e : error)
  | ExecutionError (e : error).

(** Modelled from the spec: [Invoke(tool, rawArguments,
    rawTemplateArguments)] of section 4.3: validate the arguments, then
    the template arguments the same way, then execute. The pipeline is
    missing from the sources. *)
Definition Invoke (tool : Tool) (raw rawTemplate : gmap string Value) : Outcome :=
  match ParseParams (tool_Parameters tool) raw with
  | Err e => ValidationError e
  | Ok params =>
      match ParseParams (tool_TemplateParameters tool) rawTemplate with
      | Err e => ValidationError e
      | Ok templateParams =>
          match Execute tool params templateParams with
          | Err e => ExecutionError e
          | Ok payload => Invoked payload
          end
      end
  end.

(** Modelled from the spec: the JSON-RPC envelope of section 3 for a
    [tools/call] request, whose params carry a tool name and an
    arguments object (section 4.4). Package [mcp] is missing from the
    sources; the field names are those the tests use. *)
Inductive RequestId : Type :=
  | IdString (s : string)
  | IdNumber (n : Z).

Record JSONRPCRequest : Type := {
  Jsonrpc : string;
  Id : RequestId;
  Method : string;
  Params_name : string;
  Params_arguments : gmap string Value;
}.

Inductive JSONRPCResponse : Type :=
  | JSONRPCResult (id : RequestId) (payload : string)
  | JSONRPCError (id : RequestId) (code : Z) (message : string).

(** Modelled from the spec: the error codes of section 6. *)
Definition INVALID_REQUEST : Z := -32600.
Definition METHOD_NOT_FOUND : Z := -32601.
Definition INVALID_PARAMS : Z := -32602.
Definition INTERNAL_ERROR : Z := -32603.

(** Modelled from the spec: [tools/call] handling of section 4.4:
    resolve the tool, run the Auth Gate, run the Invocation Pipeline,
    each failure with its code and message, every response with the
    request's id. The dispatcher is missing from the sources. *)
Definition toolsCallHandler (toolsMap : gmap string Tool)
    (headers : gmap string string) (req : JSONRPCRequest) : JSONRPCResponse :=
  match toolsMap !! Params_name req with
  | None =>
      JSONRPCError (Id req) INVALID_PARAMS
        ("invalid tool name: tool with name " +:+ quoted (Params_name req)
         +:+ " does not exist")
  | Some tool =>
      match Authorize tool headers with
      | Err _ =>
          JSONRPCError (Id req) INVALID_REQUEST
            "unauthorized Tool call: `authRequired` is set for the target Tool"
      | Ok _ =>
          match Invoke tool (Params_arguments req) (Params_arguments req) with
          | ValidationError e =>
              JSONRPCError (Id req) INVALID_PARAMS
                ("provided parameters were invalid: " +:+ Error e)
          | ExecutionError e => JSONRPCError (Id req) INTERNAL_ERROR (Error e)
          | Invoked payload => JSONRPCResult (Id req) payload
          end
      end
  end.

(** *** The auth gate *)

Lemma firstVerified_Some (headers : gmap string string) (required : list string)
    (claims : Claims) :
  firstVerified headers required = Some claims →
  ∃ svc token, svc ∈ required ∧ credential headers svc = Some token
               ∧ Verify svc token = Ok claims.
Proof.
  induction required as [|svc rest IH]; [done|]. cbn.
  destruct (credential headers svc) as [token|] eqn:Hc.
  - destruct (Verify svc token) as [c|e] eqn:Hv.
    + intros [= <-]. exists svc, token. split; [by left | done].
    + intros H. destruct (IH H) as (svc' & token' & Hin & H1 & H2).
      exists svc', token'. split; [by right | done].
  - intros H. destruct (IH H) as (svc' & token' & Hin & H1 & H2).
    exists svc', token'. split; [by right | done].
Qed.

Lemma firstVerified_None (headers : gmap string string) (required : list string) :
  firstVerified headers required = None ↔
  ∀ svc, svc ∈ required →
    credential headers svc = None
    ∨ ∃ token, credential headers svc = Some token ∧ is_Err (Verify svc token).
Proof.
  induction required as [|svc rest IH]; cbn.
  - split; [|done]. intros _ svc Hin. by apply elem_of_nil in Hin.
  - destruct (credential headers svc) as [token|] eqn:Hc.
    + destruct (Verify svc token) as [c|e] eqn:Hv.
      * split; [done|]. intros H. exfalso.
        destruct (H svc) as [Hn | (t & Ht & [e He])]; [by left | congruence |].
        congruence.
      * rewrite IH. split.
        -- intros H svc' [-> | Hin]%elem_of_cons; [|by apply H].
           right. exists token. split; [done | by eexists].
        -- intros H svc' Hin. apply H. by right.
    + rewrite IH. split.
      * intros H svc' [-> | Hin]%elem_of_cons; [by left | by apply H].
      * intros H svc' Hin. apply H. by right.
Qed.

Lemma Authorize_Err (tool : Tool) (headers : gmap string string) :
  is_Err (Authorize tool headers) ↔
  AuthRequired tool ≠ [] ∧ firstVerified headers (AuthRequired tool) = None.
Proof.
  unfold Authorize. destruct (AuthRequired tool) as [|svc rest] eqn:Hreq.
  - split; [intros [e He]; discriminate | intros [H _]; done].
  - destruct (firstVerified headers (svc :: rest)) as [c|].
    + split; [intros [e He]; discriminate | intros [_ H]; discriminate].
    + split; [done | intros _; by eexists].
Qed.

(** C4. A tool without required auth services is authorized
    unconditionally, with empty claims. Otherwise authorization succeeds
    exactly when one of the listed services has its credential among
    the headers and verifies it, whatever the other listed services do,
    and fails exactly when every listed service has no credential
    present or fails to verify the one presented. *)
Theorem auth_gate_any_of (tool : Tool) (headers : gmap string string) :
  (AuthRequired tool = [] → Authorize tool headers = Ok ∅)
  ∧ (AuthRequired tool ≠ [] →
     (is_Ok (Authorize tool headers) ↔
      ∃ svc token, svc ∈ AuthRequired tool
                   ∧ credential headers svc = Some token
                   ∧ is_Ok (Verify svc token))
     ∧ (is_Err (Authorize tool headers) ↔
        ∀ svc, svc ∈ AuthRequired tool →
          credential headers svc = None
          ∨ ∃ token, credential headers svc = Some token
                     ∧ is_Err (Verify svc token))).
Proof.
  split.
  { intros Hreq. unfold Authorize. by rewrite Hreq. }
  intros Hreq.
  assert (Herr : is_Err (Authorize tool headers) ↔
                 ∀ svc, svc ∈ AuthRequired tool →
                   credential headers svc = None
                   ∨ ∃ token, credential headers svc = Some token
                              ∧ is_Err (Verify svc token)).
  { rewrite Authorize_Err, firstVerified_None. split; [by intros [_ H] | done]. }
  split; [|exact Herr]. split.
  - intros [c Hc]. unfold Authorize in Hc.
    destruct (AuthRequired tool) as [|svc rest] eqn:Hl; [done|].
    destruct (firstVerified headers (svc :: rest)) as [c'|] eqn:Hf; [|done].
    destruct (firstVerified_Some _ _ _ Hf) as (svc' & token & Hin & H1 & H2).
    exists svc', token. repeat split; try done. by eexists.
  - intros (svc & token & Hin & Hcred & Hok).
    destruct (is_Ok_or_Err (Authorize tool headers)) as [H | H]; [done|].
    exfalso. pose proof (proj1 Herr H) as Hall.
    destruct (Hall svc Hin) as [Hn | (t & Ht & He)]; [congruence|].
    assert (t = token) as -> by congruence. exact (not_Ok_Err _ Hok He).
Qed.

(** *** tools/call *)

(** C5. A [tools/call] request naming a tool that is not in the tool
    map is answered with the error code -32602, the message [invalid
    tool name: tool with name "<name>" does not exist], and the
    request's id. *)
Theorem toolsCall_unknown_tool (toolsMap : gmap string Tool)
    (headers : gmap string string) (req : JSONRPCRequest) :
  toolsMap !! Params_name req = None →
  toolsCallHandler toolsMap headers req
  = JSONRPCError (Id req) (-32602)
      ("invalid tool name: tool with name " +:+ dquote +:+ Params_name req +:+ dquote
       +:+ " does not exist").
Proof.
  intros Hnone. unfold toolsCallHandler. rewrite Hnone.
  unfold INVALID_PARAMS, quoted. by rewrite <- !append_assoc.
Qed.

(** C7. A [tools/call] request on a tool with required auth services
    whose auth gate fails is answered with the error code -32600, the
    message [unauthorized Tool call: `authRequired` is set for the
    target Tool], and the request's id. *)
Theorem toolsCall_unauthorized (toolsMap : gmap string Tool)
    (headers : gmap string string) (req : JSONRPCRequest) (tool : Tool) :
  toolsMap !! Params_name req = Some tool →
  AuthRequired tool ≠ [] →
  is_Err (Authorize tool headers) →
  toolsCallHandler toolsMap headers req
  = JSONRPCError (Id req) (-32600)
      "unauthorized Tool call: `authRequired` is set for the target Tool".
Proof.
  intros Htool _ [e He]. unfold toolsCallHandler. by rewrite Htool, He.
Qed.

End Handlers.

(** *** The tools of the integration tests *)

Inductive JSON : Type :=
  | JInt (n : Z)
  | JString (s : string).

Definition intParameter (name : string) : @ToolParameter JSON :=
  {| param_Name := name;
     param_Required := true;
     param_Parse := λ v, match v with
                         | JInt _ => Ok v
                         | JString _ => Err (errorString "not an integer")
                         end |}.

Definition stringParameter (name : string) : @ToolParameter JSON :=
  {| param_Name := name;
     param_Required := true;
     param_Parse := λ v, match v with
                         | JString _ => Ok v
                         | JInt _ => Err (errorString "not a string")
                         end |}.

(** [my-param-tool]: parameters [id] and [name]. *)
Definition myParamTool : @Tool JSON :=
  {| tool_Parameters := [intParameter "id"; stringParameter "name"];
     tool_TemplateParameters := [];
     AuthRequired := [];
     Execute := λ _ _, Ok "rows" |}.

(** [my-auth-required-tool]: no parameter, one required auth service. *)
Definition myAuthRequiredTool : @Tool JSON :=
  {| tool_Parameters := [];
     tool_TemplateParameters := [];
     AuthRequired := ["my-google-auth"];
     Execute := λ _ _, Ok "rows" |}.

(** [my-fail-tool]: its statement fails on the source. *)
Definition myFailTool : @Tool JSON :=
  {| tool_Parameters := [intParameter "id"];
     tool_TemplateParameters := [];
     AuthRequired := [];
     Execute := λ _ _, Err (errorString "unable to execute query") |}.

(** A tool with a required parameter and two accepted auth services. *)
Definition guardedParamTool : @Tool JSON :=
  {| tool_Parameters := [intParameter "id"];
     tool_TemplateParameters := [];
     AuthRequired := ["my-google-auth"; "my-other-auth"];
     Execute := λ _ _, Ok "rows" |}.

Definition testTools : gmap string (@Tool JSON) :=
  {[ "my-param-tool" := myParamTool;
     "my-auth-required-tool" := myAuthRequiredTool;
     "my-fail-tool" := myFailTool;
     "guarded-param-tool" := guardedParamTool ]}.

(** Every service accepts the one token [ID_TOKEN]. *)
Definition testVerify (svc token : string) : result (gmap string string) :=
  if decide (token = "ID_TOKEN") then Ok {[ "sub" := svc ]}
  else Err (errorString "invalid token").

Definition toolsCall (id name : string) (arguments : gmap string JSON)
    : @JSONRPCRequest JSON :=
  {| Jsonrpc := "2.0";
     Id := IdString id;
     Method := "tools/call";
     Params_name := name;
     Params_arguments := arguments |}.

(** The expectations of [RunMCPToolCallMethod]. *)
Example mcp_invoke_invalid_tool :
  toolsCallHandler testVerify testTools ∅ (toolsCall "invalid-tool" "foo" ∅)
  = JSONRPCError (IdString "invalid-tool") (-32602)
      ("invalid tool name: tool with name " +:+ quoted "foo" +:+ " does not exist").
Proof. vm_compute. reflexivity. Qed.

Example mcp_invoke_without_parameters :
  toolsCallHandler testVerify testTools ∅
    (toolsCall "invoke-without-parameter" "my-param-tool" ∅)
  = JSONRPCError (IdString "invoke-without-parameter") (-32602)
      ("provided parameters were invalid: parameter " +:+ quoted "id"
       +:+ " is required").
Proof. vm_compute. reflexivity. Qed.

Example mcp_invoke_insufficient_parameters :
  toolsCallHandler testVerify testTools ∅
    (toolsCall "invoke-insufficient-parameter" "my-param-tool" {[ "id" := JInt 1 ]})
  = JSONRPCError (IdString "invoke-insufficient-parameter") (-32602)
      ("provided parameters were invalid: parameter " +:+ quoted "name"
       +:+ " is required").
Proof. vm_compute. reflexivity. Qed.

Example mcp_invoke_auth_required_tool :
  toolsCallHandler testVerify testTools ∅
    (toolsCall "invoke my-auth-required-tool" "my-auth-required-tool" ∅)
  = JSONRPCError (IdString "invoke my-auth-required-tool") (-32600)
      "unauthorized Tool call: `authRequired` is set for the target Tool".
Proof. vm_compute. reflexivity. Qed.

(** The first listed service presents an invalid token, the second a
    valid one: the gate passes. *)
Lemma auth_gate_any_of_witness :
  is_Ok (Authorize testVerify guardedParamTool
           {[ "my-google-auth_token" := "INVALID_TOKEN";
              "my-other-auth_token" := "ID_TOKEN" ]}).
Proof.
  apply (proj1 (proj2 (auth_gate_any_of testVerify guardedParamTool
                         {[ "my-google-auth_token" := "INVALID_TOKEN";
                            "my-other-auth_token" := "ID_TOKEN" ]})
                  ltac:(discriminate))).
  exists "my-other-auth", "ID_TOKEN".
  split; [vm_compute; right; left|]. split; [vm_compute; reflexivity|].
  eexists. vm_compute. reflexivity.
Defined.

Lemma toolsCall_unknown_tool_witness :
  toolsCallHandler testVerify testTools ∅ (toolsCall "invalid-tool" "foo" ∅)
  = JSONRPCError (IdString "invalid-tool") (-32602)
      ("invalid tool name: tool with name " +:+ dquote +:+ "foo" +:+ dquote
       +:+ " does not exist").
Proof.
  apply (toolsCall_unknown_tool testVerify testTools ∅ (toolsCall "invalid-tool" "foo" ∅)).
  vm_compute. reflexivity.
Defined.

Lemma toolsCall_unauthorized_witness :
  toolsCallHandler testVerify testTools
    {[ "my-google-auth_token" := "INVALID_TOKEN" ]}
    (toolsCall "invoke my-auth-required-tool" "my-auth-required-tool" ∅)
  = JSONRPCError (IdString "invoke my-auth-required-tool") (-32600)
      "unauthorized Tool call: `authRequired` is set for the target Tool".
Proof.
  apply (toolsCall_unauthorized testVerify testTools
           {[ "my-google-auth_token" := "INVALID_TOKEN" ]}
           (toolsCall "invoke my-auth-required-tool" "my-auth-required-tool" ∅)
           myAuthRequiredTool).
  - vm_compute. reflexivity.
  - discriminate.
  - eexists. vm_compute. reflexivity.
Defined.

End toolcall.

(** ** The checks of the invoke tests

    [RunToolInvokeTest], [RunToolInvokeWithTemplateParameters] and
    [RunExecuteSqlToolInvokeTest] judge the response of each case with
    the same statements. *)
Module tests.
Section InvokeCheck.

(** The values of a JSON object decoded into [map[string]interface{}],
    and the type assertion [.(string)]. *)
Context {any : Type}.
Variable asString : any → option string.

(** [json.NewDecoder(resp.Body).Decode(&body)]. *)
Variable Decode : string → result (gmap string any).

(** [%q]. *)
Variable Quote : string → string.

Record invokeTc : Type := {
  name : string;
  api : string;
  requestHeader : gmap string string;
  requestBody : string;
  want : string;
  isErr : bool;
}.

(** What the check reads of [*http.Response]. *)
Record Response : Type := {
  StatusCode : Z;
  Body : string;
}.

Definition StatusOK : Z := 200.

(** How a subtest ends: it returns, or [t.Fatalf] stops it. *)
Inductive Verdict : Type :=
  | Passed
  | Fatalf (msg : string).

(** The statements after [http.DefaultClient.Do] in the subtest. *)
Definition checkResponse (tc : invokeTc) (resp : Response) : Verdict :=
  if decide (StatusCode resp ≠ StatusOK) then
    if isErr tc then Passed
    else Fatalf ("response status code is not 200, got " +:+ pretty (StatusCode resp)
                 +:+ ": " +:+ Body resp)
  else
    match Decode (Body resp) with
    | Err _ => Fatalf "error parsing response body"
    | Ok body =>
        match body !! "result" ≫= asString with
        | None => Fatalf "unable to find result in response body"
        | Some got =>
            if decide (got ≠ want tc)
            then Fatalf ("unexpected value: got " +:+ Quote got +:+ ", want "
                         +:+ Quote (want tc))
            else Passed
        end
    end.

(** The response carries the result [got]: status 200 and a JSON object
    whose [result] is that string. *)
Definition has_result (resp : Response) (got : string) : Prop :=
  StatusCode resp = StatusOK
  ∧ ∃ body v, Decode (Body resp) = Ok body ∧ body !! "result" = Some v
              ∧ asString v = Some got.

(** X17. A case passes exactly when the response is not a 200 and the
    case expects an error, or the response is a 200 whose result is the
    wanted string. So a case that expects an error passes on every
    response other than 200 without its body being read, and a 200
    does not fail it when the result equals [want]. *)
Theorem checkResponse_Passed (tc : invokeTc) (resp : Response) :
  (checkResponse tc resp = Passed ↔
   (StatusCode resp ≠ StatusOK ∧ isErr tc = true) ∨ has_result resp (want tc))
  ∧ (isErr tc = true → has_result resp (want tc) → checkResponse tc resp = Passed).
Proof.
  assert (Hright : has_result resp (want tc) → checkResponse tc resp = Passed).
  { intros (Hst & body & v & Hd & Hb & Hv). unfold checkResponse.
    rewrite decide_False by (intros H; by apply H).
    rewrite Hd, Hb. cbn. rewrite Hv. by rewrite decide_False by (intros H; by apply H). }
  split; [|by intros _]. split.
  - unfold checkResponse, has_result.
    destruct (decide (StatusCode resp ≠ StatusOK)) as [Hne | Heq].
    + destruct (isErr tc); [by left | done].
    + assert (StatusCode resp = StatusOK) as Hst
        by (destruct (decide (StatusCode resp = StatusOK)); done).
      destruct (Decode (Body resp)) as [body|e]; [|done].
      destruct (body !! "result") as [v|] eqn:Hb; cbn; [|done].
      destruct (asString v) as [got|] eqn:Hv; [|done].
      destruct (decide (got ≠ want tc)) as [Hw | Hw]; [done|].
      intros _. right. split; [done|]. exists body, v.
      assert (got = want tc) as -> by (destruct (decide (got = want tc)); done).
      done.
  - intros [[Hne Herr] | Hres]; [|by apply Hright].
    unfold checkResponse. rewrite decide_True by done. by rewrite Herr.
Qed.

End InvokeCheck.

(** Decoded values: a string or anything else. *)
Inductive anyValue : Type :=
  | aString (s : string)
  | aOther.

Definition anyString (v : anyValue) : option string :=
  match v with
  | aString s => Some s
  | aOther => None
  end.

(** The body [{"result": r}] is written [r]; every body decodes. *)
Definition resultBody (bodyText : string) : result (gmap string anyValue) :=
  Ok {[ "result" := aString bodyText ]}.

(** [Invoke my-tool without parameters] of [RunToolInvokeTest]. *)
Definition withoutParameters : invokeTc :=
  {| name := "Invoke my-tool without parameters";
     api := "http://127.0.0.1:5000/api/tool/my-tool/invoke";
     requestHeader := ∅;
     requestBody := "{}";
     want := EmptyString;
     isErr := true |}.

Lemma checkResponse_Passed_witness :
  checkResponse anyString resultBody quoted withoutParameters
    {| StatusCode := 200; Body := EmptyString |} = Passed.
Proof.
  apply (proj2 (checkResponse_Passed anyString resultBody quoted withoutParameters
                  {| StatusCode := 200; Body := EmptyString |})).
  - reflexivity.
  - split; [reflexivity|].
    exists {[ "result" := aString EmptyString ]}, (aString EmptyString).
    split; [reflexivity|]. split; [vm_compute; reflexivity | reflexivity].
Defined.

End tests.
